(** * Service control over SSM: resolution, script generation and dispatch

    A shallow embedding of [start-stop-restart-services.py] and the
    properties its specification states about it.

    Python [str] values are modelled as [string]: a sequence of code points
    below 256 (one [ascii] per code point).  The string methods used by the
    program ([split], [strip], [lower]) are written out for that range. *)

From Stdlib Require Import Ascii NArith Bool.
From stdpp Require Import base list strings gmap.

Set Default Proof Using "Type".

(** ** Characters the generated scripts need *)

Definition nl : string := String (ascii_of_nat 10) EmptyString.
Definition dq : string := String (ascii_of_nat 34) EmptyString.
Definition comma : ascii := ascii_of_nat 44.

Fixpoint chars (s : string) : list ascii :=
  match s with
  | EmptyString => []
  | String c s' => c :: chars s'
  end.

Fixpoint all_chars (P : ascii -> bool) (s : string) : bool :=
  match s with
  | EmptyString => true
  | String c s' => P c && all_chars P s'
  end.

(** The character has one of the listed codes. *)
Definition is_one_of (cs : list nat) (c : ascii) : bool :=
  existsb (Nat.eqb (nat_of_ascii c)) cs.

(** ** Python string methods *)

Module Py.

Definition code (c : ascii) : N := N_of_ascii c.

Definition in_range (lo hi : N) (c : ascii) : bool :=
  (lo <=? code c)%N && (code c <=? hi)%N.

(** [str.isspace] on one code point below 256: TAB..CR, FS..US, SPACE,
    NEL (0x85) and NBSP (0xA0). *)
Definition isspace (c : ascii) : bool :=
  in_range 9 13 c || in_range 28 32 c || (code c =? 133)%N || (code c =? 160)%N.

(** [str.lower] on one code point below 256: A..Z and the Latin-1 capitals
    (0xC0..0xDE without the multiplication sign 0xD7) move up by 32. *)
Definition lower_char (c : ascii) : ascii :=
  if in_range 65 90 c || in_range 192 214 c || in_range 216 222 c
  then ascii_of_N (code c + 32) else c.

Fixpoint lower (s : string) : string :=
  match s with
  | EmptyString => EmptyString
  | String c s' => String (lower_char c) (lower s')
  end.

(** [s.split(sep)] for a one-character separator: never returns the empty
    list, and keeps empty segments. *)
Fixpoint split (sep : ascii) (s : string) : list string :=
  match s with
  | EmptyString => [EmptyString]
  | String c s' =>
      if Ascii.eqb c sep then EmptyString :: split sep s'
      else match split sep s' with
           | [] => [String c EmptyString]
           | w :: ws => String c w :: ws
           end
  end.

Fixpoint lstrip (s : string) : string :=
  match s with
  | EmptyString => EmptyString
  | String c s' => if isspace c then lstrip s' else s
  end.

Fixpoint rstrip (s : string) : string :=
  match s with
  | EmptyString => EmptyString
  | String c s' =>
      match rstrip s' with
      | EmptyString => if isspace c then EmptyString else String c EmptyString
      | r => String c r
      end
  end.

(** [s.strip()] with no argument. *)
Definition strip (s : string) : string := rstrip (lstrip s).

(** Truth value of a [str]: the empty string is false. *)
Definition truthy (s : string) : bool :=
  match s with EmptyString => false | _ => true end.

(** Truth value of what [os.getenv] returns: [None] and the empty string
    are false. *)
Definition truthy_opt (o : option string) : bool :=
  match o with None => false | Some s => truthy s end.

End Py.

(** ** The name list of [main]

    [server_list = [s.strip() for s in servers.split(",") if s.strip()]] *)

Definition server_list (servers : string) : list string :=
  map Py.strip (filter (fun s => Is_true (Py.truthy (Py.strip s))) (Py.split comma servers)).


(** ** A fragment of the POSIX shell

    The Linux script is a fixed program of this fragment with the two
    configuration strings placed in it.  [print] gives its text, [exec]
    its meaning on a host. *)

Module Sh.

(** The pieces of a double-quoted word: literal text and [$x]. *)
Inductive part :=
| Lit (s : string)
| Var (x : string).

Definition word := list part.

(** Simple commands and pipelines, each with an exit status. *)
Inductive simple :=
| Test_eq (a b : word)                 (* [ a = b ] *)
| Echo (w : word)                      (* echo w *)
| Grep_units (pat : word)              (* systemctl list-unit-files | grep -q pat *)
| Systemctl (verb : string) (u : word) (* sudo systemctl verb u *).

Inductive cmd :=
| Assign (x : string) (w : word)       (* x=w *)
| For (x y : string) (body : cmd)      (* for x in $y; do body done *)
| If (c : simple) (thn : cmd) (rest : tail)
| And_or (a b c : simple)              (* a && b || c *)
| Run (a : simple)
| Seq (c1 c2 : cmd)
with tail :=
| Fi
| Else (body : cmd)
| Elif (c : simple) (thn : cmd) (rest : tail).

(** *** Concrete syntax *)

Fixpoint indent (n : nat) : string :=
  match n with
  | O => EmptyString
  | S n' => "    " +:+ indent n'
  end.

Definition print_part (p : part) : string :=
  match p with
  | Lit s => s
  | Var x => "$" +:+ x
  end.

Definition print_word (w : word) : string :=
  dq +:+ foldr (fun p acc => print_part p +:+ acc) dq w.

Definition print_simple (s : simple) : string :=
  match s with
  | Test_eq a b => "[ " +:+ print_word a +:+ " = " +:+ print_word b +:+ " ]"
  | Echo w => "echo " +:+ print_word w
  | Grep_units pat => "systemctl list-unit-files | grep -q " +:+ print_word pat
  | Systemctl verb u => "sudo systemctl " +:+ verb +:+ " " +:+ print_word u
  end.

Fixpoint print (n : nat) (c : cmd) : string :=
  match c with
  | Assign x w => indent n +:+ x +:+ "=" +:+ print_word w +:+ nl
  | For x y body =>
      indent n +:+ "for " +:+ x +:+ " in $" +:+ y +:+ "; do" +:+ nl +:+
      print (S n) body +:+
      indent n +:+ "done" +:+ nl
  | If c thn rest =>
      indent n +:+ "if " +:+ print_simple c +:+ "; then" +:+ nl +:+
      print (S n) thn +:+
      print_tail n rest
  | And_or a b c =>
      indent n +:+ print_simple a +:+ " && " +:+ print_simple b +:+
      " || " +:+ print_simple c +:+ nl
  | Run a => indent n +:+ print_simple a +:+ nl
  | Seq c1 c2 => print n c1 +:+ print n c2
  end
with print_tail (n : nat) (t : tail) : string :=
  match t with
  | Fi => indent n +:+ "fi" +:+ nl
  | Else body =>
      indent n +:+ "else" +:+ nl +:+
      print (S n) body +:+
      indent n +:+ "fi" +:+ nl
  | Elif c thn rest =>
      indent n +:+ "elif " +:+ print_simple c +:+ "; then" +:+ nl +:+
      print (S n) thn +:+
      print_tail n rest
  end.

(** *** Expansion *)

(** Inside double quotes the shell reads every character as itself except
    the double quote (34), the dollar sign (36), the backslash (92) and
    the backquote (96).  A literal with one of those is outside this
    fragment: its printed form would not read back as the same word. *)
Definition plain (s : string) : bool :=
  all_chars (fun c => negb (is_one_of [34; 36; 92; 96]%nat c)) s.

(** The default [IFS]: space, tab, newline. *)
Definition is_ifs (c : ascii) : bool := is_one_of [32; 9; 10]%nat c.

(** Field splitting of an unquoted expansion: maximal runs of characters
    that are not in [IFS]. *)
Fixpoint fields (s : string) : list string :=
  match s with
  | EmptyString => []
  | String c s' =>
      if is_ifs c then fields s'
      else match s' with
           | EmptyString => [String c EmptyString]
           | String c' _ =>
               if is_ifs c' then String c EmptyString :: fields s'
               else match fields s' with
                    | w :: ws => String c w :: ws
                    | [] => [String c EmptyString]
                    end
           end
  end.

(** A field with [*] (42), [?] (63) or [[] (91) undergoes pathname
    expansion against the working directory, which is not modelled. *)
Definition no_glob (s : string) : bool :=
  all_chars (fun c => negb (is_one_of [42; 63; 91]%nat c)) s.

(** *** Meaning on a host

    The host answers two questions: does some line of the unit listing
    match a pattern ([grep_units]), and what does [sudo systemctl verb u]
    do ([systemctl]: the host afterwards, and whether it exited with 0). *)

Section Semantics.
Context {H : Type}.
Variable grep_units : H -> string -> bool.
Variable systemctl : H -> string -> string -> H * bool.

Record state := State {
  vars : gmap string string;
  host : H;
  out : list string   (* lines written to standard output, oldest first *)
}.

Definition getvar (st : state) (x : string) : string :=
  default EmptyString (vars st !! x).

Definition setvar (x v : string) (st : state) : state :=
  State (<[x := v]> (vars st)) (host st) (out st).

Definition expand_part (st : state) (p : part) : option string :=
  match p with
  | Lit s => if plain s then Some s else None
  | Var x => Some (getvar st x)
  end.

Fixpoint expand (st : state) (w : word) : option string :=
  match w with
  | [] => Some EmptyString
  | p :: w' =>
      match expand_part st p, expand st w' with
      | Some a, Some b => Some (a +:+ b)
      | _, _ => None
      end
  end.

Definition run_simple (s : simple) (st : state) : option (state * bool) :=
  match s with
  | Test_eq a b =>
      match expand st a, expand st b with
      | Some va, Some vb => Some (st, bool_decide (va = vb))
      | _, _ => None
      end
  | Echo w =>
      match expand st w with
      | Some v => Some (State (vars st) (host st) (out st ++ [v]), true)
      | None => None
      end
  | Grep_units pat =>
      match expand st pat with
      | Some v => Some (st, grep_units (host st) v)
      | None => None
      end
  | Systemctl verb u =>
      match expand st u with
      | Some v =>
          let '(h', ok) := systemctl (host st) verb v in
          Some (State (vars st) h' (out st), ok)
      | None => None
      end
  end.

Fixpoint for_each (body : state -> option state) (x : string)
    (vs : list string) (st : state) : option state :=
  match vs with
  | [] => Some st
  | v :: vs' =>
      match body (setvar x v st) with
      | Some st' => for_each body x vs' st'
      | None => None
      end
  end.

Fixpoint exec (c : cmd) (st : state) : option state :=
  match c with
  | Assign x w =>
      match expand st w with
      | Some v => Some (setvar x v st)
      | None => None
      end
  | For x y body =>
      let vs := fields (getvar st y) in
      if forallb no_glob vs then for_each (exec body) x vs st else None
  | If c thn rest =>
      match run_simple c st with
      | Some (st', true) => exec thn st'
      | Some (st', false) => exec_tail rest st'
      | None => None
      end
  | And_or a b c =>
      match run_simple a st with
      | Some (st1, true) =>
          match run_simple b st1 with
          | Some (st2, true) => Some st2
          | Some (st2, false) => fst <$> run_simple c st2
          | None => None
          end
      | Some (st1, false) => fst <$> run_simple c st1
      | None => None
      end
  | Run a => fst <$> run_simple a st
  | Seq c1 c2 =>
      match exec c1 st with
      | Some st' => exec c2 st'
      | None => None
      end
  end
with exec_tail (t : tail) (st : state) : option state :=
  match t with
  | Fi => Some st
  | Else body => exec body st
  | Elif c thn rest =>
      match run_simple c st with
      | Some (st', true) => exec thn st'
      | Some (st', false) => exec_tail rest st'
      | None => None
      end
  end.

(** Running a whole script on host [h]: the host afterwards and the
    lines written. *)
Definition run (c : cmd) (h : H) : option (H * list string) :=
  match exec c (State ∅ h []) with
  | Some st => Some (host st, out st)
  | None => None
  end.
End Semantics.

End Sh.

(** ** A fragment of PowerShell

    The Windows script is a fixed program of this fragment.  As for the
    shell, [print] gives its text and [exec] its meaning on a host. *)

Module Ps.

Inductive expr :=
| Str (s : string)        (* a double-quoted string *)
| Var (x : string)        (* $x *)
| Member (x p : string)   (* $x.p *)
| Add (a b : expr)        (* a + b *)
| Split (a sep : expr)    (* a -split sep *).

Inductive cond :=
| Eq (a b : expr)         (* a -eq b *)
| Ne (a b : expr)         (* a -ne b *).

Inductive cmdlet :=
| Get_Service
| Start_Service
| Stop_Service
| Restart_Service_Force.

Inductive stmt :=
| Assign (x : string) (e : expr)                 (* $x=e *)
| Assign_call (x : string) (c : cmdlet) (a : string)
                                (* $x = c -Name $a -ErrorAction Stop *)
| Call (c : cmdlet) (a : string)   (* c -Name $a -ErrorAction Stop *)
| Write_Host (e : expr)            (* Write-Host (e) *)
| Foreach (x y : string) (body : stmt)
| Try (body handler : stmt)
| If (c : cond) (thn : stmt) (rest : tail)
| Seq (s1 s2 : stmt)
with tail :=
| End_if
| Else (body : stmt)
| Elseif (c : cond) (thn : stmt) (rest : tail).

(** *** Concrete syntax *)

Fixpoint print_expr (e : expr) : string :=
  match e with
  | Str s => dq +:+ s +:+ dq
  | Var x => "$" +:+ x
  | Member x p => "$" +:+ x +:+ "." +:+ p
  | Add a b => print_expr a +:+ " + " +:+ print_expr b
  | Split a sep => print_expr a +:+ " -split " +:+ print_expr sep
  end.

Definition print_cond (c : cond) : string :=
  match c with
  | Eq a b => "(" +:+ print_expr a +:+ " -eq " +:+ print_expr b +:+ ")"
  | Ne a b => "(" +:+ print_expr a +:+ " -ne " +:+ print_expr b +:+ ")"
  end.

Definition print_call (c : cmdlet) (a : string) : string :=
  match c with
  | Get_Service => "Get-Service -Name $" +:+ a +:+ " -ErrorAction Stop"
  | Start_Service => "Start-Service -Name $" +:+ a +:+ " -ErrorAction Stop"
  | Stop_Service => "Stop-Service -Name $" +:+ a +:+ " -ErrorAction Stop"
  | Restart_Service_Force =>
      "Restart-Service -Name $" +:+ a +:+ " -Force -ErrorAction Stop"
  end.

Fixpoint print (n : nat) (s : stmt) : string :=
  match s with
  | Assign x e => Sh.indent n +:+ "$" +:+ x +:+ "=" +:+ print_expr e +:+ nl
  | Assign_call x c a =>
      Sh.indent n +:+ "$" +:+ x +:+ " = " +:+ print_call c a +:+ nl
  | Call c a => Sh.indent n +:+ print_call c a +:+ nl
  | Write_Host e => Sh.indent n +:+ "Write-Host (" +:+ print_expr e +:+ ")" +:+ nl
  | Foreach x y body =>
      Sh.indent n +:+ "foreach($" +:+ x +:+ " in $" +:+ y +:+ "){" +:+ nl +:+
      print (S n) body +:+
      Sh.indent n +:+ "}" +:+ nl
  | Try body handler =>
      Sh.indent n +:+ "try {" +:+ nl +:+
      print (S n) body +:+
      Sh.indent n +:+ "} catch {" +:+ nl +:+
      print (S n) handler +:+
      Sh.indent n +:+ "}" +:+ nl
  | If c thn rest =>
      Sh.indent n +:+ "if " +:+ print_cond c +:+ " {" +:+ nl +:+
      print (S n) thn +:+
      print_tail n rest
  | Seq s1 s2 => print n s1 +:+ print n s2
  end
with print_tail (n : nat) (t : tail) : string :=
  match t with
  | End_if => Sh.indent n +:+ "}" +:+ nl
  | Else body =>
      Sh.indent n +:+ "} else {" +:+ nl +:+
      print (S n) body +:+
      Sh.indent n +:+ "}" +:+ nl
  | Elseif c thn rest =>
      Sh.indent n +:+ "} elseif " +:+ print_cond c +:+ " {" +:+ nl +:+
      print (S n) thn +:+
      print_tail n rest
  end.

(** *** Values *)

(** [System.ServiceProcess.ServiceControllerStatus]. *)
Inductive status :=
| Stopped | StartPending | StopPending | Running
| ContinuePending | PausePending | Paused.

Global Instance status_eq_dec : EqDecision status.
Proof. solve_decision. Defined.

(** What the script reads of a [ServiceController] object. *)
Record service := Service { Status : status; DisplayName : string }.

Inductive value :=
| VStr (s : string)
| VArr (l : list string)
| VSvc (s : service)
| VStatus (s : status).

(** A string literal of the fragment: printable ASCII without the double
    quote (34), the dollar sign (36) and the backquote (96), which
    PowerShell expands inside double quotes. *)
Definition plain (s : string) : bool :=
  all_chars
    (fun c => Py.in_range 32 126 c && negb (is_one_of [34; 36; 96]%nat c)) s.

(** [-Name] takes a wildcard pattern; a name with [*] (42), [?] (63),
    [[] (91) or []] (93) may select several services and is outside the
    fragment. *)
Definition no_wildcard (s : string) : bool :=
  all_chars (fun c => negb (is_one_of [42; 63; 91; 93]%nat c)) s.

(** [-eq] on two strings ignores case. *)
Definition eq_nocase (a b : string) : bool :=
  bool_decide (Py.lower a = Py.lower b).

(** Conversion of a string to the enumeration, as [-ne] does to its right
    operand when the left one is a status. *)
Definition status_of_string (s : string) : option status :=
  let names :=
    [("stopped", Stopped); ("startpending", StartPending);
     ("stoppending", StopPending); ("running", Running);
     ("continuepending", ContinuePending); ("pausepending", PausePending);
     ("paused", Paused)] in
  snd <$> find (fun p => bool_decide (fst p = Py.lower s)) names.

(** *** Meaning on a host

    [get_service h name] is what [Get-Service -Name name -ErrorAction Stop]
    returns on host [h]: the service, or the message of the error it
    throws.  [control h c name] is what the cmdlet [c] does: the host
    afterwards and the message of the error it throws, if any. *)

Section Semantics.
Context {H : Type}.
Variable get_service : H -> string -> string + service.
Variable control : H -> cmdlet -> string -> H * option string.

Record state := State {
  vars : gmap string value;
  host : H;
  out : list string   (* lines written by Write-Host, oldest first *)
}.

Definition setvar (x : string) (v : value) (st : state) : state :=
  State (<[x := v]> (vars st)) (host st) (out st).

(** The result of a statement: it completes, or throws a terminating
    error with a message. *)
Inductive res :=
| Done (st : state)
| Throw (st : state) (msg : string).

Fixpoint eval (st : state) (e : expr) : option value :=
  match e with
  | Str s => if plain s then Some (VStr s) else None
  | Var x => vars st !! x
  | Member x p =>
      match vars st !! x with
      | Some (VSvc sv) =>
          if bool_decide (p = "Status") then Some (VStatus (Status sv))
          else if bool_decide (p = "DisplayName") then Some (VStr (DisplayName sv))
          else None
      | _ => None
      end
  | Add a b =>
      match eval st a, eval st b with
      | Some (VStr x), Some (VStr y) => Some (VStr (x +:+ y))
      | _, _ => None
      end
  | Split a sep =>
      match eval st a, eval st sep with
      | Some (VStr x), Some (VStr y) =>
          if bool_decide (y = ",") then Some (VArr (Py.split comma x)) else None
      | _, _ => None
      end
  end.

Definition test (st : state) (c : cond) : option bool :=
  match c with
  | Eq a b =>
      match eval st a, eval st b with
      | Some (VStr x), Some (VStr y) => Some (eq_nocase x y)
      | _, _ => None
      end
  | Ne a b =>
      match eval st a, eval st b with
      | Some (VStatus x), Some (VStr y) =>
          match status_of_string y with
          | Some z => Some (negb (bool_decide (x = z)))
          | None => None
          end
      | _, _ => None
      end
  end.

(** The name a cmdlet is called with: the string in variable [a]. *)
Definition name_arg (st : state) (a : string) : option string :=
  match vars st !! a with
  | Some (VStr v) => if no_wildcard v then Some v else None
  | _ => None
  end.

Definition call (c : cmdlet) (name : string) (st : state) : res * option value :=
  match c with
  | Get_Service =>
      match get_service (host st) name with
      | inr sv => (Done st, Some (VSvc sv))
      | inl msg => (Throw st msg, None)
      end
  | _ =>
      let '(h', err) := control (host st) c name in
      let st' := State (vars st) h' (out st) in
      match err with
      | None => (Done st', None)
      | Some msg => (Throw st' msg, None)
      end
  end.

Fixpoint for_each (body : state -> option res) (x : string)
    (vs : list string) (st : state) : option res :=
  match vs with
  | [] => Some (Done st)
  | v :: vs' =>
      match body (setvar x (VStr v) st) with
      | Some (Done st') => for_each body x vs' st'
      | r => r
      end
  end.

Fixpoint exec (s : stmt) (st : state) : option res :=
  match s with
  | Assign x e =>
      match eval st e with
      | Some v => Some (Done (setvar x v st))
      | None => None
      end
  | Assign_call x c a =>
      match name_arg st a with
      | Some name =>
          match call c name st with
          | (Done st', Some v) => Some (Done (setvar x v st'))
          | (Done st', None) => None
          | (Throw st' msg, _) => Some (Throw st' msg)
          end
      | None => None
      end
  | Call c a =>
      match name_arg st a with
      | Some name => Some (fst (call c name st))
      | None => None
      end
  | Write_Host e =>
      match eval st e with
      | Some (VStr v) => Some (Done (State (vars st) (host st) (out st ++ [v])))
      | _ => None
      end
  | Foreach x y body =>
      match vars st !! y with
      | Some (VArr vs) => for_each (exec body) x vs st
      | _ => None
      end
  | Try body handler =>
      match exec body st with
      | Some (Throw st' msg) => exec handler (setvar "_" (VStr msg) st')
      | r => r
      end
  | If c thn rest =>
      match test st c with
      | Some true => exec thn st
      | Some false => exec_tail rest st
      | None => None
      end
  | Seq s1 s2 =>
      match exec s1 st with
      | Some (Done st') => exec s2 st'
      | r => r
      end
  end
with exec_tail (t : tail) (st : state) : option res :=
  match t with
  | End_if => Some (Done st)
  | Else body => exec body st
  | Elseif c thn rest =>
      match test st c with
      | Some true => exec thn st
      | Some false => exec_tail rest st
      | None => None
      end
  end.

(** Running a whole script on host [h]: the host afterwards and the
    lines written, when no error escapes the script. *)
Definition run (s : stmt) (h : H) : option (H * list string) :=
  match exec s (State ∅ h []) with
  | Some (Done st) => Some (host st, out st)
  | _ => None
  end.
End Semantics.

End Ps.

(** ** The script generators

    The two f-string templates, line by line as the source has them, with
    [services] and [action] placed where the braces are. *)

Definition build_windows_script (services action : string) : string :=
  nl +:+
  "$services=" +:+ dq +:+ services +:+ dq +:+ " -split " +:+ dq +:+ "," +:+ dq +:+ nl +:+
  "foreach($svc in $services){" +:+ nl +:+
  "    try {" +:+ nl +:+
  "        $s = Get-Service -Name $svc -ErrorAction Stop" +:+ nl +:+
  "        if (" +:+ dq +:+ action +:+ dq +:+ " -eq " +:+ dq +:+ "start" +:+ dq +:+ ") {" +:+ nl +:+
  "            if ($s.Status -ne " +:+ dq +:+ "Running" +:+ dq +:+ ") {" +:+ nl +:+
  "                Start-Service -Name $svc -ErrorAction Stop" +:+ nl +:+
  "                Write-Host (" +:+ dq +:+ "Started " +:+ dq +:+ " + $s.DisplayName)" +:+ nl +:+
  "            } else {" +:+ nl +:+
  "                Write-Host ($s.DisplayName + " +:+ dq +:+ " already running" +:+ dq +:+ ")" +:+ nl +:+
  "            }" +:+ nl +:+
  "        } elseif (" +:+ dq +:+ action +:+ dq +:+ " -eq " +:+ dq +:+ "stop" +:+ dq +:+ ") {" +:+ nl +:+
  "            if ($s.Status -ne " +:+ dq +:+ "Stopped" +:+ dq +:+ ") {" +:+ nl +:+
  "                Stop-Service -Name $svc -ErrorAction Stop" +:+ nl +:+
  "                Write-Host (" +:+ dq +:+ "Stopped " +:+ dq +:+ " + $s.DisplayName)" +:+ nl +:+
  "            } else {" +:+ nl +:+
  "                Write-Host ($s.DisplayName + " +:+ dq +:+ " already stopped" +:+ dq +:+ ")" +:+ nl +:+
  "            }" +:+ nl +:+
  "        } elseif (" +:+ dq +:+ action +:+ dq +:+ " -eq " +:+ dq +:+ "restart" +:+ dq +:+ ") {" +:+ nl +:+
  "            Restart-Service -Name $svc -Force -ErrorAction Stop" +:+ nl +:+
  "            Write-Host (" +:+ dq +:+ "Restarted " +:+ dq +:+ " + $s.DisplayName)" +:+ nl +:+
  "        }" +:+ nl +:+
  "    } catch {" +:+ nl +:+
  "        Write-Host (" +:+ dq +:+ "Error with " +:+ dq +:+ " + $svc + " +:+ dq +:+ ": " +:+ dq +:+ " + $_)" +:+ nl +:+
  "    }" +:+ nl +:+
  "}" +:+ nl.

Definition build_linux_script (services action : string) : string :=
  nl +:+
  "services=" +:+ dq +:+ services +:+ dq +:+ nl +:+
  "for svc in $services; do" +:+ nl +:+
  "    if systemctl list-unit-files | grep -q " +:+ dq +:+ "$svc" +:+ dq +:+ "; then" +:+ nl +:+
  "        if [ " +:+ dq +:+ action +:+ dq +:+ " = " +:+ dq +:+ "start" +:+ dq +:+ " ]; then" +:+ nl +:+
  "            sudo systemctl start " +:+ dq +:+ "$svc" +:+ dq +:+ " && echo " +:+ dq +:+ "Started $svc" +:+ dq +:+ " || echo " +:+ dq +:+ "Failed to start $svc" +:+ dq +:+ nl +:+
  "        elif [ " +:+ dq +:+ action +:+ dq +:+ " = " +:+ dq +:+ "stop" +:+ dq +:+ " ]; then" +:+ nl +:+
  "            sudo systemctl stop " +:+ dq +:+ "$svc" +:+ dq +:+ " && echo " +:+ dq +:+ "Stopped $svc" +:+ dq +:+ " || echo " +:+ dq +:+ "Failed to stop $svc" +:+ dq +:+ nl +:+
  "        elif [ " +:+ dq +:+ action +:+ dq +:+ " = " +:+ dq +:+ "restart" +:+ dq +:+ " ]; then" +:+ nl +:+
  "            sudo systemctl restart " +:+ dq +:+ "$svc" +:+ dq +:+ " && echo " +:+ dq +:+ "Restarted $svc" +:+ dq +:+ " || echo " +:+ dq +:+ "Failed to restart $svc" +:+ dq +:+ nl +:+
  "        fi" +:+ nl +:+
  "    else" +:+ nl +:+
  "        echo " +:+ dq +:+ "Error: $svc not found on this system" +:+ dq +:+ nl +:+
  "    fi" +:+ nl +:+
  "done" +:+ nl.

(** The same two scripts as programs of the fragments above. *)

Definition windows_act (c : Ps.cmdlet) (done_msg : string) : Ps.stmt :=
  Ps.Seq (Ps.Call c "svc")
         (Ps.Write_Host (Ps.Add (Ps.Str done_msg) (Ps.Member "s" "DisplayName"))).

Definition windows_guarded (c : Ps.cmdlet)
    (target done_msg already_msg : string) : Ps.stmt :=
  Ps.If (Ps.Ne (Ps.Member "s" "Status") (Ps.Str target))
        (windows_act c done_msg)
        (Ps.Else (Ps.Write_Host (Ps.Add (Ps.Member "s" "DisplayName") (Ps.Str already_msg)))).

(** The body of the [foreach] loop. *)
Definition windows_body (action : string) : Ps.stmt :=
  Ps.Try
    (Ps.Seq
       (Ps.Assign_call "s" Ps.Get_Service "svc")
       (Ps.If (Ps.Eq (Ps.Str action) (Ps.Str "start"))
          (windows_guarded Ps.Start_Service "Running" "Started " " already running")
          (Ps.Elseif (Ps.Eq (Ps.Str action) (Ps.Str "stop"))
             (windows_guarded Ps.Stop_Service "Stopped" "Stopped " " already stopped")
             (Ps.Elseif (Ps.Eq (Ps.Str action) (Ps.Str "restart"))
                (windows_act Ps.Restart_Service_Force "Restarted ")
                Ps.End_if))))
    (Ps.Write_Host
       (Ps.Add (Ps.Add (Ps.Add (Ps.Str "Error with ") (Ps.Var "svc")) (Ps.Str ": "))
               (Ps.Var "_"))).

Definition windows_program (services action : string) : Ps.stmt :=
  Ps.Seq
    (Ps.Assign "services" (Ps.Split (Ps.Str services) (Ps.Str ",")))
    (Ps.Foreach "svc" "services" (windows_body action)).

Definition linux_act (verb done_msg failed_msg : string) : Sh.cmd :=
  Sh.And_or (Sh.Systemctl verb [Sh.Var "svc"])
            (Sh.Echo [Sh.Lit done_msg; Sh.Var "svc"])
            (Sh.Echo [Sh.Lit failed_msg; Sh.Var "svc"]).

(** The body of the [for] loop. *)
Definition linux_body (action : string) : Sh.cmd :=
  Sh.If (Sh.Grep_units [Sh.Var "svc"])
    (Sh.If (Sh.Test_eq [Sh.Lit action] [Sh.Lit "start"])
       (linux_act "start" "Started " "Failed to start ")
       (Sh.Elif (Sh.Test_eq [Sh.Lit action] [Sh.Lit "stop"])
          (linux_act "stop" "Stopped " "Failed to stop ")
          (Sh.Elif (Sh.Test_eq [Sh.Lit action] [Sh.Lit "restart"])
             (linux_act "restart" "Restarted " "Failed to restart ")
             Sh.Fi)))
    (Sh.Else
       (Sh.Run (Sh.Echo [Sh.Lit "Error: "; Sh.Var "svc";
                         Sh.Lit " not found on this system"]))).

Definition linux_program (services action : string) : Sh.cmd :=
  Sh.Seq
    (Sh.Assign "services" [Sh.Lit services])
    (Sh.For "svc" "services" (linux_body action)).

(** ** The fleet, the command channel and the process

    What [boto3] answers is a function of the request.  One run never makes
    the same request twice (the two tag queries differ in the tag, and the
    identifiers iterated over are the elements of a set), so nothing is lost
    by leaving time out.  The EC2 client is built twice with the same
    arguments, by the resolver and before the loop; building a client reads
    the region and sends nothing, so the second construction ends as the
    first did. *)

(** Python exceptions by the classes the handlers tell apart:
    [botocore.exceptions.ClientError], and the other subclasses of
    [Exception]. *)
Inductive exn :=
| ClientError (msg : string)
| ValueError (msg : string)
| IndexError (msg : string)
| OtherException (msg : string).

Definition is_ClientError (e : exn) : bool :=
  match e with ClientError _ => true | _ => false end.

(** An instance of a [describe_instances] response: [inst["InstanceId"]],
    [inst["State"]["Name"]] and the optional key ["Platform"]. *)
Record instance := Instance {
  InstanceId : string;
  State_Name : string;
  Platform : option string
}.

(** One element of [response["Reservations"]]. *)
Record reservation := Reservation { Instances : list instance }.

(** The arguments of [ssm.send_command]. *)
Record send_request := Send_request {
  Target_instanceIds : list string;
  DocumentName : string;
  Comment : string;
  commands : list string
}.

Global Instance send_request_eq_dec : EqDecision send_request.
Proof. solve_decision. Defined.

Record world := World {
  (** [boto3.client(service, region_name=region)]: the exception it raises,
      if any.  Building a client sends nothing; it fails for a region no
      endpoint can be formed from. *)
  client_error : string -> string -> option exn;
  (** [client.describe_instances(Filters=[{"Name": tag, "Values": values}])] *)
  describe_by_tag : string -> string -> list string -> exn + list reservation;
  (** [ec2.describe_instances(InstanceIds=ids)] *)
  describe_by_id : string -> list string -> exn + list reservation;
  (** [ssm.send_command(...)]: the [CommandId] of the response *)
  send_command : string -> send_request -> exn + string;
  (** [list(set(l))]: the order in which a set is iterated is not fixed by
      the language; it is some arrangement of the elements. *)
  set_to_list : gset string -> list string;
  set_to_list_perm : forall X, set_to_list X ≡ₚ elements X
}.

(** What the process prints, one constructor per [print] of the source with
    the values it formats. *)
Inductive message :=
| Msg_describe_error (e : exn)
| Msg_no_running (servers : list string)
| Msg_detect_failed (instance_id : string) (e : exn)
| Msg_sent (instance_id action command_id : string)
| Msg_send_error (instance_id : string) (e : exn).

(** What the process does that can be observed: requests, in the first
    argument the region of the client, and printed lines. *)
Inductive event :=
| Describe_by_tag (region tag : string) (values : list string)
| Describe_by_id (region : string) (ids : list string)
| Send_command (region : string) (req : send_request)
| Printed (m : message).

(** How a computation ends: with a value, in [sys.exit(n)], or in an
    exception nobody caught. *)
Inductive outcome (A : Type) :=
| Return (a : A)
| Exit (n : Z)
| Raise (e : exn).
Arguments Return {A} a.
Arguments Exit {A} n.
Arguments Raise {A} e.

(** A computation: the events so far and how it ended. *)
Definition M (A : Type) : Type := list event * outcome A.

Definition ret {A} (a : A) : M A := ([], Return a).
Definition emit (ev : event) : M unit := ([ev], Return tt).
Definition sys_exit {A} (n : Z) : M A := ([], Exit n).
Definition raise {A} (e : exn) : M A := ([], Raise e).

Definition bind {A B} (m : M A) (k : A -> M B) : M B :=
  match m with
  | (tr, Return a) => let '(tr', o) := k a in (tr ++ tr', o)
  | (tr, Exit n) => (tr, Exit n)
  | (tr, Raise e) => (tr, Raise e)
  end.

Notation "x <- m ;; k" := (bind m (fun x => k))
  (at level 100, m at level 99, k at level 100, right associativity).
Notation "m ;;; k" := (bind m (fun _ => k))
  (at level 100, k at level 100, right associativity).

(** A value or an exception, as a computation without events. *)
Definition lift {A} (r : exn + A) : M A :=
  match r with inr a => ret a | inl e => raise e end.

(** [boto3.client(service, region_name=region)]: no event; the client is
    the pair of its service and region, which the requests carry. *)
Definition make_client (w : world) (service region : string) : M unit :=
  match client_error w service region with
  | Some e => raise e
  | None => ret tt
  end.

(** A request: the event, then the answer or the exception. *)
Definition request {A} (ev : event) (answer : exn + A) : M A :=
  emit ev ;;; lift answer.

(** [try: m except ClientError as e: h e] *)
Definition try_ClientError {A} (m : M A) (h : exn -> M A) : M A :=
  match m with
  | (tr, Raise e) =>
      if is_ClientError e then let '(tr', o) := h e in (tr ++ tr', o)
      else (tr, Raise e)
  | _ => m
  end.

(** [try: m except Exception as e: h e] *)
Definition try_Exception {A} (m : M A) (h : exn -> M A) : M A :=
  match m with
  | (tr, Raise e) => let '(tr', o) := h e in (tr ++ tr', o)
  | _ => m
  end.

(** The status the process ends with. *)
Definition exit_code {A} (m : M A) : Z :=
  match snd m with
  | Return _ => 0
  | Exit n => n
  | Raise _ => 1
  end.

(** ** [get_instance_ids_by_name] *)

(** The loops over reservations and instances: the identifiers of the
    running ones, in order, repeats included. *)
Definition running_ids (reservations : list reservation) : list string :=
  r ← reservations;
  inst ← Instances r;
  if bool_decide (State_Name inst = "running") then [InstanceId inst] else [].

Definition get_instance_ids_by_name (w : world) (names : list string)
    (region : string) : M (list string) :=
  make_client w "ec2" region ;;;
  reservations <-
    try_ClientError
      (r1 <- request (Describe_by_tag region "tag:Name" names)
                     (describe_by_tag w region "tag:Name" names) ;;
       r2 <- request (Describe_by_tag region "tag:Hostname" names)
                     (describe_by_tag w region "tag:Hostname" names) ;;
       ret (r1 ++ r2))
      (fun e => emit (Printed (Msg_describe_error e)) ;;; sys_exit 1) ;;
  ret (set_to_list w (list_to_set (running_ids reservations))).

(** ** [main] *)

(** [os.getenv] of the four variables; [None] when a variable is not set. *)
Record environ := Environ {
  env_server_names : option string;
  env_Service : option string;
  env_Action : option string;
  env_region : option string
}.

(** The capital of a letter a..z. *)
Definition upper_char (c : ascii) : ascii :=
  if Py.in_range 97 122 c then ascii_of_N (Py.code c - 32) else c.

(** The title-case form of one code point below 256, which
    [str.capitalize] puts first: a..z and the Latin-1 small letters
    (0xE0..0xFE without the division sign 0xF7) move down by 32, and the
    sharp s (0xDF) becomes the two letters Ss.  The capitals of the micro
    sign (0xB5) and of y with diaeresis (0xFF) lie above 255, outside the
    strings of this file: these two are left as they are, so [capitalize]
    is exact for every string that does not begin with one of them. *)
Definition title_char (c : ascii) : string :=
  if Py.in_range 97 122 c || Py.in_range 224 246 c || Py.in_range 248 254 c
  then String (ascii_of_N (Py.code c - 32)) EmptyString
  else if (Py.code c =? 223)%N then "Ss"
  else String c EmptyString.

(** [action.capitalize()] *)
Definition capitalize (s : string) : string :=
  match s with
  | EmptyString => EmptyString
  | String c s' => title_char c +:+ Py.lower s'
  end.

(** [info["Reservations"][0]["Instances"][0].get("Platform", "Linux")] *)
Definition platform_of (info : list reservation) : exn + string :=
  match info with
  | [] => inl (IndexError "list index out of range")
  | r :: _ =>
      match Instances r with
      | [] => inl (IndexError "list index out of range")
      | inst :: _ => inr (default "Linux" (Platform inst))
      end
  end.

Definition is_windows (platform : string) : bool :=
  bool_decide (Py.lower platform = "windows").

(** The branch on the platform: the script and the document. *)
Definition select_script (platform services action : string) : string * string :=
  if is_windows platform
  then (build_windows_script services action, "AWS-RunPowerShellScript")
  else (build_linux_script services action, "AWS-RunShellScript").

(** The arguments [ssm.send_command] is called with for one instance. *)
Definition send_request_for (services action instance_id platform : string)
    : send_request :=
  let '(script, document) := select_script platform services action in
  Send_request [instance_id] document
    (capitalize action +:+ " services: " +:+ services) [script].

(** The body of the loop for one instance; [None] stands for [continue]. *)
Definition dispatch_one (w : world) (region services action instance_id : string)
    : M unit :=
  detected <-
    try_Exception
      (info <- request (Describe_by_id region [instance_id])
                       (describe_by_id w region [instance_id]) ;;
       platform <- lift (platform_of info) ;;
       ret (Some platform))
      (fun e => emit (Printed (Msg_detect_failed instance_id e)) ;;; ret None) ;;
  match detected with
  | None => ret tt
  | Some platform =>
      let req := send_request_for services action instance_id platform in
      try_ClientError
        (command_id <- request (Send_command region req) (send_command w region req) ;;
         emit (Printed (Msg_sent instance_id action command_id)))
        (fun e => emit (Printed (Msg_send_error instance_id e)))
  end.

Fixpoint dispatch_all (w : world) (region services action : string)
    (instance_ids : list string) : M unit :=
  match instance_ids with
  | [] => ret tt
  | instance_id :: rest =>
      dispatch_one w region services action instance_id ;;;
      dispatch_all w region services action rest
  end.

Definition main (env : environ) (w : world) : M unit :=
  let servers := env_server_names env in
  let services := env_Service env in
  let action := env_Action env in
  let region := default "us-east-1" (env_region env) in
  match servers, services, action with
  | Some servers, Some services, Some action =>
      if Py.truthy servers && Py.truthy services && Py.truthy action then
        let server_list := server_list servers in
        instance_ids <- get_instance_ids_by_name w server_list region ;;
        match instance_ids with
        | [] => emit (Printed (Msg_no_running server_list)) ;;; sys_exit 1
        | _ =>
            make_client w "ec2" region ;;;
            make_client w "ssm" region ;;;
            dispatch_all w region services action instance_ids
        end
      else raise (ValueError "Missing required env vars: servers, Service, Action")
  | _, _, _ => raise (ValueError "Missing required env vars: servers, Service, Action")
  end.

(** ** Reading a run

    The views of a run the properties below are stated with. *)

(** The per-instance outcome of the specification; the process reports it
    as a printed line. *)
Inductive dispatch_status :=
| sent (command_id : string)
| platformDetectFailed
| submitFailed.

Definition outcome_of_event (ev : event) : option (string * dispatch_status) :=
  match ev with
  | Printed (Msg_sent i _ c) => Some (i, sent c)
  | Printed (Msg_detect_failed i _) => Some (i, platformDetectFailed)
  | Printed (Msg_send_error i _) => Some (i, submitFailed)
  | _ => None
  end.

Definition outcomes (tr : list event) : list (string * dispatch_status) :=
  omap outcome_of_event tr.

(** The requests made to the command channel, in order. *)
Definition send_requests (tr : list event) : list send_request :=
  omap (fun ev => match ev with Send_command _ req => Some req | _ => None end) tr.

(** Platform detection for one instance, without the events. *)
Definition detect (w : world) (region instance_id : string) : exn + string :=
  match describe_by_id w region [instance_id] with
  | inl e => inl e
  | inr info => platform_of info
  end.

(** The outcome the loop body reaches for one instance when every failure
    of the submission is one the handler catches. *)
Definition status_of (w : world) (region services action instance_id : string)
    : dispatch_status :=
  match detect w region instance_id with
  | inl _ => platformDetectFailed
  | inr platform =>
      match send_command w region (send_request_for services action instance_id platform) with
      | inr c => sent c
      | inl _ => submitFailed
      end
  end.

(** The three configuration values are set and not empty: the only check
    [main] makes. *)
Definition config_present (env : environ) : bool :=
  Py.truthy_opt (env_server_names env) && Py.truthy_opt (env_Service env)
  && Py.truthy_opt (env_Action env).

(** Joining segments with a separator, to say what [split] returns. *)
Fixpoint join (sep : ascii) (l : list string) : string :=
  match l with
  | [] => EmptyString
  | [s] => s
  | s :: l' => s +:+ String sep (join sep l')
  end.

(** Following the specification's words: [s] is the lower-case word [t] up
    to the case of its letters. *)
Definition is_spelling_of (t s : string) : Prop :=
  Forall2 (fun l c => c = l \/ c = upper_char l) (chars t) (chars s).

(** What the Linux script does for one field [svc] when the action is
    start: the host afterwards and the lines so far. *)
Definition linux_start_step {H} (grep_units : H -> string -> bool)
    (systemctl : H -> string -> string -> H * bool)
    (acc : H * list string) (svc : string) : H * list string :=
  let '(h, lines) := acc in
  if grep_units h svc then
    let '(h', ok) := systemctl h "start" svc in
    (h', lines ++ [(if ok then "Started " else "Failed to start ") +:+ svc])
  else (h, lines ++ ["Error: " +:+ svc +:+ " not found on this system"]).

(** What the Windows script does for one element [svc] of the split list
    when the action is start. *)
Definition windows_start_step {H} (get_service : H -> string -> string + Ps.service)
    (control : H -> Ps.cmdlet -> string -> H * option string)
    (acc : H * list string) (svc : string) : H * list string :=
  let '(h, lines) := acc in
  match get_service h svc with
  | inl msg => (h, lines ++ ["Error with " +:+ svc +:+ ": " +:+ msg])
  | inr sv =>
      if bool_decide (Ps.Status sv = Ps.Running)
      then (h, lines ++ [Ps.DisplayName sv +:+ " already running"])
      else
        let '(h', err) := control h Ps.Start_Service svc in
        match err with
        | None => (h', lines ++ ["Started " +:+ Ps.DisplayName sv])
        | Some msg => (h', lines ++ ["Error with " +:+ svc +:+ ": " +:+ msg])
        end
  end.

(** The request the loop makes to the command channel for one instance:
    none when its platform was not detected. *)
Definition expected_request (w : world) (region services action instance_id : string)
    : option send_request :=
  match detect w region instance_id with
  | inr platform => Some (send_request_for services action instance_id platform)
  | inl _ => None
  end.

(** A service name both fragments read as one name: not empty, printable
    ASCII without blanks, and without the comma (44) and the characters the
    two languages give a meaning to: double quote (34), dollar sign (36),
    star (42), question mark (63), brackets (91, 93), backslash (92) and
    backquote (96). *)
Definition name_char (c : ascii) : bool :=
  Py.in_range 33 126 c && negb (is_one_of [34; 36; 42; 44; 63; 91; 92; 93; 96]%nat c).

Definition service_name (s : string) : bool :=
  Py.truthy s && all_chars name_char s.

(** ** Concrete hosts and fleets

    Small instances of the host and world interfaces, to run the
    definitions on. *)

Fixpoint prefix_of (p s : string) : bool :=
  match p, s with
  | EmptyString, _ => true
  | String a p', String b s' => Ascii.eqb a b && prefix_of p' s'
  | String _ _, EmptyString => false
  end.

Fixpoint contains (p s : string) : bool :=
  prefix_of p s || match s with
                   | EmptyString => false
                   | String _ s' => contains p s'
                   end.

(** A Linux host: the names of its units, the ones that are active, and the
    [systemctl] calls made so far (newest last). *)
Record linux_host := Linux_host {
  unit_names : list string;
  active : list string;
  systemctl_calls : list (string * string)
}.

(** [systemctl list-unit-files | grep -q pat] for a pattern without regular
    expression operators: some line [name.service enabled] contains it. *)
Definition linux_grep (h : linux_host) (pat : string) : bool :=
  existsb (fun u => contains pat (u +:+ ".service enabled")) (unit_names h).

(** [sudo systemctl verb u]: fails on an unknown unit; otherwise [start] and
    [restart] leave the unit active and [stop] inactive. *)
Definition linux_systemctl (h : linux_host) (verb u : string) : linux_host * bool :=
  let known := bool_decide (u ∈ unit_names h) in
  let active' :=
    if negb known then active h
    else if bool_decide (verb = "stop") then filter (fun a => a ≠ u) (active h)
    else if bool_decide (u ∈ active h) then active h
    else active h ++ [u] in
  (Linux_host (unit_names h) active' (systemctl_calls h ++ [(verb, u)]), known).

(** A Windows host: its services by name, and the control cmdlets called so
    far (newest last). *)
Record windows_host := Windows_host {
  services_by_name : list (string * Ps.service);
  control_calls : list (Ps.cmdlet * string)
}.

Definition windows_get_service (h : windows_host) (name : string)
    : string + Ps.service :=
  match find (fun p => Ps.eq_nocase (fst p) name) (services_by_name h) with
  | Some p => inr (snd p)
  | None => inl ("Cannot find any service with service name '" +:+ name +:+ "'.")
  end.

Definition windows_control (h : windows_host) (c : Ps.cmdlet) (name : string)
    : windows_host * option string :=
  let target := match c with Ps.Stop_Service => Ps.Stopped | _ => Ps.Running end in
  let known := existsb (fun p => Ps.eq_nocase (fst p) name) (services_by_name h) in
  (Windows_host
     (map (fun p => if Ps.eq_nocase (fst p) name
                    then (fst p, Ps.Service target (Ps.DisplayName (snd p))) else p)
          (services_by_name h))
     (control_calls h ++ [(c, name)]),
   if known then None
   else Some ("Cannot find any service with service name '" +:+ name +:+ "'.")).

(** A fleet: instances with their two tags.  A tag query answers with one
    reservation per matching instance; a query by identifier fails for the
    identifiers in [vanished]. *)
Record fleet_entry := Fleet_entry {
  fe_instance : instance;
  fe_Name : option string;
  fe_Hostname : option string
}.

Definition tag_value (tag : string) (e : fleet_entry) : option string :=
  if bool_decide (tag = "tag:Name") then fe_Name e
  else if bool_decide (tag = "tag:Hostname") then fe_Hostname e
  else None.

Definition fleet_by_tag (fleet : list fleet_entry) (tag : string)
    (values : list string) : exn + list reservation :=
  inr (map (fun e => Reservation [fe_instance e])
           (List.filter (fun e => match tag_value tag e with
                                  | Some v => bool_decide (v ∈ values)
                                  | None => false
                                  end) fleet)).

Definition fleet_by_id (fleet : list fleet_entry) (vanished : list string)
    (ids : list string) : exn + list reservation :=
  if bool_decide (Exists (fun i => i ∈ vanished) ids)
  then inl (ClientError "InvalidInstanceID.NotFound")
  else inr (map (fun e => Reservation [fe_instance e])
                (filter (fun e => InstanceId (fe_instance e) ∈ ids) fleet)).

(** Building a client for the empty region fails, since no endpoint can be
    formed from it; for any other region it succeeds. *)
Definition endpoint_error (service region : string) : option exn :=
  if bool_decide (region = "")
  then Some (ValueError ("Invalid endpoint: https://" +:+ service
                         +:+ "..amazonaws.com"))
  else None.

Definition fleet_world (fleet : list fleet_entry) (vanished : list string)
    (send : send_request -> exn + string) : world :=
  World endpoint_error
        (fun _ => fleet_by_tag fleet)
        (fun _ => fleet_by_id fleet vanished)
        (fun _ => send)
        elements
        (fun X => reflexivity (elements X)).

Definition linux_box (id name : string) : fleet_entry :=
  Fleet_entry (Instance id "running" None) None (Some name).

Definition windows_box (id name : string) : fleet_entry :=
  Fleet_entry (Instance id "running" (Some "windows")) (Some name) (Some name).

Definition stopped_box (id name : string) : fleet_entry :=
  Fleet_entry (Instance id "stopped" None) (Some name) None.

(** The command channel accepts everything, and names the command after the
    instance. *)
Definition send_ok (req : send_request) : exn + string :=
  inr ("cmd-" +:+ join comma (Target_instanceIds req)).

(** The service rejects every submission. *)
Definition send_rejected (req : send_request) : exn + string :=
  inl (ClientError "AccessDeniedException").

(** The endpoint cannot be reached: [botocore] raises
    [EndpointConnectionError], which is not a [ClientError]. *)
Definition send_unreachable (req : send_request) : exn + string :=
  inl (OtherException "EndpointConnectionError").

(** One instance matched by both tags, one stopped instance matched by the
    display name. *)
Definition demo_fleet : list fleet_entry :=
  [stopped_box "i-0a1" "web-1";
   Fleet_entry (Instance "i-0b2" "running" None) (Some "web-1") (Some "web-1")].

Definition demo_fleet_world : world := fleet_world demo_fleet [] send_ok.

(** Three running instances of which the second cannot be looked up. *)
Definition trio_fleet : list fleet_entry :=
  [windows_box "i-1" "app"; linux_box "i-2" "app"; linux_box "i-3" "app"].

Definition trio_world (send : send_request -> exn + string) : world :=
  fleet_world trio_fleet ["i-2"] send.

(** A Linux host with the unit nginx, which is already active. *)
Definition nginx_running : linux_host := Linux_host ["nginx"; "redis"] ["nginx"] [].

(** A Linux host with the units nginx and redis, none of them active. *)
Definition nginx_redis_stopped : linux_host := Linux_host ["nginx"; "redis"] [] [].

(** A Windows host with the service nginx running and redis stopped. *)
Definition windows_nginx_redis : windows_host :=
  Windows_host [("nginx", Ps.Service Ps.Running "Nginx Web Server");
                ("redis", Ps.Service Ps.Stopped "Redis")] [].

(** ** More hosts and views *)

(** The inventory rejects every tag query (the account is throttled). *)
Definition throttled_world : world :=
  World endpoint_error
        (fun _ _ _ => inl (ClientError "RequestLimitExceeded"))
        (fun _ => fleet_by_id demo_fleet [])
        (fun _ => send_ok)
        elements
        (fun X => reflexivity (elements X)).

(** What is printed and how the resolver ends when a tag query raises [e]. *)
Definition describe_failure_lines (e : exn) : list event :=
  if is_ClientError e then [Printed (Msg_describe_error e)] else [].

Definition describe_failure_end {A} (e : exn) : outcome A :=
  if is_ClientError e then Exit 1 else Raise e.

(** A character of a target-names value that holds no name: white space or
    the comma. *)
Definition blank_or_comma (c : ascii) : bool := Py.isspace c || Ascii.eqb c comma.

(** A clean name: not empty, nothing to strip, no comma. *)
Definition clean_name (n : string) : Prop :=
  n <> EmptyString /\ Py.strip n = n /\ comma ∉ chars n.

(** ** The scripts round by round, for any action *)

(** [sudo systemctl verb "$svc" && echo done || echo failed] *)
Definition linux_act_step {H} (systemctl : H -> string -> string -> H * bool)
    (verb done_msg failed_msg : string)
    (acc : H * list string) (svc : string) : H * list string :=
  let '(h, lines) := acc in
  let '(h', ok) := systemctl h verb svc in
  (h', lines ++ [(if ok then done_msg else failed_msg) +:+ svc]).

(** One round of the Linux loop: the [if] on the unit listing and the chain
    of tests on the action, which compare whole strings. *)
Definition linux_step {H} (grep_units : H -> string -> bool)
    (systemctl : H -> string -> string -> H * bool) (action : string)
    (acc : H * list string) (svc : string) : H * list string :=
  if grep_units (fst acc) svc then
    if bool_decide (action = "start")
    then linux_act_step systemctl "start" "Started " "Failed to start " acc svc
    else if bool_decide (action = "stop")
    then linux_act_step systemctl "stop" "Stopped " "Failed to stop " acc svc
    else if bool_decide (action = "restart")
    then linux_act_step systemctl "restart" "Restarted " "Failed to restart " acc svc
    else acc
  else (fst acc, snd acc ++ ["Error: " +:+ svc +:+ " not found on this system"]).

(** The line the handler of the Windows [try] prints. *)
Definition windows_error_line (svc msg : string) : string :=
  "Error with " +:+ svc +:+ ": " +:+ msg.

(** A control cmdlet followed by [Write-Host]; an error of the cmdlet goes to
    the handler. *)
Definition windows_act_step {H} (control : H -> Ps.cmdlet -> string -> H * option string)
    (c : Ps.cmdlet) (done_msg : string)
    (acc : H * list string) (svc : string) (sv : Ps.service) : H * list string :=
  let '(h, lines) := acc in
  let '(h', err) := control h c svc in
  match err with
  | None => (h', lines ++ [done_msg +:+ Ps.DisplayName sv])
  | Some msg => (h', lines ++ [windows_error_line svc msg])
  end.

(** The test on the status in front of a control cmdlet. *)
Definition windows_guarded_step {H}
    (control : H -> Ps.cmdlet -> string -> H * option string)
    (c : Ps.cmdlet) (target : Ps.status) (done_msg already_msg : string)
    (acc : H * list string) (svc : string) (sv : Ps.service) : H * list string :=
  if bool_decide (Ps.Status sv = target)
  then (fst acc, snd acc ++ [Ps.DisplayName sv +:+ already_msg])
  else windows_act_step control c done_msg acc svc sv.

(** One round of the Windows loop: [Get-Service], then the chain of tests on
    the action, which ignore case. *)
Definition windows_step {H} (get_service : H -> string -> string + Ps.service)
    (control : H -> Ps.cmdlet -> string -> H * option string) (action : string)
    (acc : H * list string) (svc : string) : H * list string :=
  match get_service (fst acc) svc with
  | inl msg => (fst acc, snd acc ++ [windows_error_line svc msg])
  | inr sv =>
      if Ps.eq_nocase action "start"
      then windows_guarded_step control Ps.Start_Service Ps.Running
             "Started " " already running" acc svc sv
      else if Ps.eq_nocase action "stop"
      then windows_guarded_step control Ps.Stop_Service Ps.Stopped
             "Stopped " " already stopped" acc svc sv
      else if Ps.eq_nocase action "restart"
      then windows_act_step control Ps.Restart_Service_Force "Restarted " acc svc sv
      else acc
  end.

(** The three actions the scripts know. *)
Definition known_action (action : string) : bool :=
  bool_decide (action = "start") || bool_decide (action = "stop")
  || bool_decide (action = "restart").

(** The line the Linux script prints for a name the unit listing does not
    match. *)
Definition linux_not_found_line (svc : string) : string :=
  "Error: " +:+ svc +:+ " not found on this system".

(** The lines the Linux script can print for one field. *)
Definition linux_lines_for (svc : string) : list string :=
  ["Started " +:+ svc; "Failed to start " +:+ svc;
   "Stopped " +:+ svc; "Failed to stop " +:+ svc;
   "Restarted " +:+ svc; "Failed to restart " +:+ svc;
   linux_not_found_line svc].

(** The action is one of the three up to the case of its letters, which is
    how the Windows script compares it. *)
Definition known_action_nocase (action : string) : bool :=
  Ps.eq_nocase action "start" || Ps.eq_nocase action "stop"
  || Ps.eq_nocase action "restart".

(** The line the Windows script prints for an element when [Get-Service]
    throws; nothing when it finds the service. *)
Definition windows_lookup_error {H} (get_service : H -> string -> string + Ps.service)
    (h : H) (svc : string) : option string :=
  match get_service h svc with
  | inl msg => Some (windows_error_line svc msg)
  | inr _ => None
  end.

(** * Properties *)

(** ** Strings *)

Lemma append_cons x (a b : string) : String x a +:+ b = String x (a +:+ b).
Proof. reflexivity. Qed.

Lemma append_assoc (a b c : string) : (a +:+ b) +:+ c = a +:+ b +:+ c.
Proof.
  induction a as [|x a IH]; [reflexivity|].
  rewrite !append_cons. f_equal. exact IH.
Qed.

Lemma append_empty_r (a : string) : a +:+ EmptyString = a.
Proof.
  induction a as [|x a IH]; [reflexivity|].
  rewrite append_cons. f_equal. exact IH.
Qed.

Lemma build_linux_script_program services action :
  build_linux_script services action = nl +:+ Sh.print 0 (linux_program services action).
Proof.
  cbv -[String.append]. rewrite !append_assoc. reflexivity.
Qed.

Lemma build_windows_script_program services action :
  build_windows_script services action = nl +:+ Ps.print 0 (windows_program services action).
Proof.
  cbv -[String.append]. rewrite !append_assoc. reflexivity.
Qed.

(** The two scripts never coincide: their second characters differ. *)
Lemma scripts_differ services action :
  build_windows_script services action <> build_linux_script services action.
Proof.
  intros E. apply (f_equal (String.get 1)) in E.
  change (Some "$"%char = Some "s"%char) in E. discriminate E.
Qed.

(** ** [split] and [strip] *)

Lemma split_not_nil sep s : Py.split sep s <> [].
Proof.
  destruct s as [|c s]; simpl; [discriminate|].
  destruct (Ascii.eqb c sep); [discriminate|].
  destruct (Py.split sep s); discriminate.
Qed.

Lemma split_join sep s : join sep (Py.split sep s) = s.
Proof.
  induction s as [|c s IH]; simpl; [reflexivity|].
  destruct (Ascii.eqb_spec c sep) as [->|Hne].
  - pose proof (split_not_nil sep s) as Hnil.
    destruct (Py.split sep s) as [|w ws] eqn:E; [done|].
    simpl. simpl in IH. by rewrite IH.
  - pose proof (split_not_nil sep s) as Hnil.
    destruct (Py.split sep s) as [|w ws] eqn:E; [done|].
    simpl in *. destruct ws; simpl in *; by rewrite <- IH.
Qed.

Lemma split_no_sep sep s :
  Forall (fun seg => sep ∉ chars seg) (Py.split sep s).
Proof.
  induction s as [|c s IH]; simpl.
  - repeat constructor. simpl. apply not_elem_of_nil.
  - destruct (Ascii.eqb_spec c sep) as [->|Hne].
    + constructor; [simpl; apply not_elem_of_nil | exact IH].
    + destruct (Py.split sep s) as [|w ws].
      * repeat constructor. simpl. intros Hin.
        apply elem_of_cons in Hin as [->|Hin]; [done|].
        by apply not_elem_of_nil in Hin.
      * inversion IH as [|? ? Hw Hws]; subst. constructor; [|done]. simpl.
        intros Hin. apply elem_of_cons in Hin as [->|Hin]; done.
Qed.

Lemma lstrip_decompose s :
  exists l, s = l +:+ Py.lstrip s /\ all_chars Py.isspace l = true.
Proof.
  induction s as [|c s (l & Hl & Hws)]; simpl.
  - by exists EmptyString.
  - destruct (Py.isspace c) eqn:Hc.
    + exists (String c l). rewrite append_cons. simpl. rewrite Hc, Hws.
      split; [by f_equal | reflexivity].
    + by exists EmptyString.
Qed.

Lemma lstrip_head s c :
  head (chars (Py.lstrip s)) = Some c -> Py.isspace c = false.
Proof.
  induction s as [|x s IH]; simpl; [done|].
  destruct (Py.isspace x) eqn:Hx; [exact IH|].
  simpl. by intros [= <-].
Qed.

Lemma rstrip_decompose s :
  exists r, s = Py.rstrip s +:+ r /\ all_chars Py.isspace r = true.
Proof.
  induction s as [|c s (r & Hr & Hws)]; simpl.
  - by exists EmptyString.
  - destruct (Py.rstrip s) as [|y t] eqn:E.
    + change (EmptyString +:+ r) with r in Hr. subst r.
      destruct (Py.isspace c) eqn:Hc.
      * exists (String c s). simpl. by rewrite Hc, Hws.
      * exists s. by rewrite append_cons.
    + exists r. rewrite append_cons. split; [by f_equal | done].
Qed.

Lemma rstrip_last s c :
  last (chars (Py.rstrip s)) = Some c -> Py.isspace c = false.
Proof.
  induction s as [|x s IH]; simpl; [done|].
  destruct (Py.rstrip s) as [|y t] eqn:E.
  - destruct (Py.isspace x) eqn:Hx; simpl; [done|]. by intros [= <-].
  - simpl in *. exact IH.
Qed.

(** Stripping on the right keeps a first character that is not white
    space. *)
Lemma rstrip_head s c :
  head (chars (Py.rstrip s)) = Some c -> head (chars s) = Some c.
Proof.
  destruct s as [|x s]; simpl; [done|].
  destruct (Py.rstrip s); [destruct (Py.isspace x)|]; simpl; done.
Qed.

Lemma strip_decompose s :
  exists l r, s = l +:+ Py.strip s +:+ r
              /\ all_chars Py.isspace l = true /\ all_chars Py.isspace r = true.
Proof.
  destruct (lstrip_decompose s) as (l & Hl & Hlw).
  destruct (rstrip_decompose (Py.lstrip s)) as (r & Hr & Hrw).
  exists l, r. unfold Py.strip. by rewrite <- Hr.
Qed.

Lemma strip_ends s c :
  (head (chars (Py.strip s)) = Some c -> Py.isspace c = false)
  /\ (last (chars (Py.strip s)) = Some c -> Py.isspace c = false).
Proof.
  unfold Py.strip. split.
  - intros Hh. apply rstrip_head in Hh. by apply lstrip_head in Hh.
  - apply rstrip_last.
Qed.

Lemma comprehension_filter_map (l : list string) :
  map Py.strip (filter (fun s => Is_true (Py.truthy (Py.strip s))) l)
  = filter (fun n => n <> EmptyString) (map Py.strip l).
Proof.
  induction l as [|x l IH]; [reflexivity|].
  rewrite filter_cons. rewrite map_cons. rewrite filter_cons.
  destruct (decide (Is_true (Py.truthy (Py.strip x)))) as [Ht|Ht];
    destruct (decide (Py.strip x <> EmptyString)) as [Hn|Hn].
  - simpl. by rewrite IH.
  - exfalso. destruct (Py.strip x); [exact Ht | by apply Hn].
  - exfalso. apply Ht. destruct (Py.strip x); [done | exact I].
  - exact IH.
Qed.

(** C10: the name list passed to resolution is made of the comma-separated
    segments of the configuration string (joined by commas they give the
    string back, and none holds a comma), each stripped of the white space
    around it (the segment is white space, the stripped name, white space,
    and the name neither starts nor ends with white space), without the
    names that are empty after stripping, in the original order. *)
Theorem server_list_segments (servers : string) :
  let segs := Py.split comma servers in
  join comma segs = servers
  /\ Forall (fun seg => comma ∉ chars seg) segs
  /\ Forall (fun seg =>
       (exists l r, seg = l +:+ Py.strip seg +:+ r
          /\ all_chars Py.isspace l = true /\ all_chars Py.isspace r = true)
       /\ forall c, (head (chars (Py.strip seg)) = Some c -> Py.isspace c = false)
                 /\ (last (chars (Py.strip seg)) = Some c -> Py.isspace c = false)) segs
  /\ server_list servers = filter (fun n => n <> EmptyString) (map Py.strip segs)
  /\ server_list " web-1, ,web-2 " = ["web-1"; "web-2"].
Proof.
  intros segs. split; [apply split_join|].
  split; [apply split_no_sep|].
  split.
  - apply Forall_forall. intros seg _. split; [apply strip_decompose|].
    intros c. apply strip_ends.
  - split; [apply comprehension_filter_map|]. vm_compute. reflexivity.
Qed.

(** ** The platform branch *)

(** A lower-case letter [l] is reached by [lower_char] from itself and from
    its capital only. *)
Definition lower_only_from_case (l : ascii) : Prop :=
  Py.lower_char l = l /\ Py.lower_char (upper_char l) = l
  /\ forall c, Py.lower_char c = l -> c = l \/ c = upper_char l.

Lemma lower_only_from_case_intro (l : ascii) :
  (forall c, bool_decide (Py.lower_char c = l)
             = bool_decide (c = l) || bool_decide (c = upper_char l)) ->
  lower_only_from_case l.
Proof.
  intros Hall. unfold lower_only_from_case.
  assert (Hc : forall c, Py.lower_char c = l <-> c = l \/ c = upper_char l).
  { intros c. rewrite <- (bool_decide_spec (Py.lower_char c = l)), Hall.
    rewrite orb_True, !bool_decide_spec. done. }
  split; [|split].
  - apply Hc. by left.
  - apply Hc. by right.
  - intros c. apply Hc.
Qed.

Lemma windows_letters : Forall lower_only_from_case (chars "windows").
Proof.
  simpl.
  repeat (apply List.Forall_cons;
          [apply lower_only_from_case_intro;
           intros [[] [] [] [] [] [] [] []]; vm_compute; reflexivity|]).
  apply List.Forall_nil.
Qed.

Lemma lower_spelling (t p : string) :
  Forall lower_only_from_case (chars t) ->
  Py.lower p = t <-> is_spelling_of t p.
Proof.
  unfold is_spelling_of. revert p.
  induction t as [|l t IH]; intros p Ht; simpl in *.
  - destruct p; simpl; split; intros E.
    + constructor.
    + reflexivity.
    + discriminate E.
    + inversion E.
  - inversion Ht as [|? ? (Hl & Hu & Hc) Ht']; subst.
    destruct p as [|c p]; simpl; split; intros E.
    + discriminate E.
    + inversion E.
    + injection E as Ec Ep. constructor; [by apply Hc | by apply IH].
    + inversion E as [|? ? ? ? Hcl Hrest]; subst.
      f_equal; [destruct Hcl as [->| ->]; done | by apply IH].
Qed.

Lemma is_windows_spelling (platform : string) :
  is_windows platform = true <-> is_spelling_of "windows" platform.
Proof.
  unfold is_windows. rewrite bool_decide_eq_true.
  apply lower_spelling, windows_letters.
Qed.

(** C9: the dispatcher selects the PowerShell script and the document
    AWS-RunPowerShellScript exactly when the platform value is the word
    windows up to the case of its letters; every other value selects the
    shell script and the document AWS-RunShellScript, and so does the
    default value Linux. *)
Theorem select_script_by_platform (platform services action : string) :
  (select_script platform services action
     = (build_windows_script services action, "AWS-RunPowerShellScript")
   <-> is_spelling_of "windows" platform)
  /\ (select_script platform services action
        = (build_linux_script services action, "AWS-RunShellScript")
      <-> ~ is_spelling_of "windows" platform)
  /\ select_script "Linux" services action
       = (build_linux_script services action, "AWS-RunShellScript").
Proof.
  rewrite <- is_windows_spelling. unfold select_script.
  pose proof (scripts_differ services action) as Hd.
  destruct (is_windows platform) eqn:E; repeat split; try done;
    try (intros [= Hs]; first [by apply Hd | by symmetry in Hs; apply Hd]);
    try (intros Hn; by destruct Hn).
Qed.

(** ** Resolution *)

Lemma set_to_list_NoDup w X : NoDup (set_to_list w X).
Proof. rewrite (set_to_list_perm w X). apply NoDup_elements. Qed.

Lemma elem_of_set_to_list w X x : x ∈ set_to_list w X <-> x ∈ X.
Proof. rewrite (set_to_list_perm w X). apply elem_of_elements. Qed.

Lemma elem_of_running_ids reservations id :
  id ∈ running_ids reservations <->
  exists r inst, r ∈ reservations /\ inst ∈ Instances r
                 /\ InstanceId inst = id /\ State_Name inst = "running".
Proof.
  unfold running_ids. rewrite list_elem_of_bind. split.
  - intros (r & Hin & Hr). apply list_elem_of_bind in Hin as (inst & Hid & Hinst).
    exists r, inst. case_bool_decide as Hs.
    + apply list_elem_of_singleton in Hid. done.
    + by apply not_elem_of_nil in Hid.
  - intros (r & inst & Hr & Hinst & <- & Hs). exists r. split; [|done].
    apply list_elem_of_bind. exists inst. split; [|done].
    rewrite bool_decide_eq_true_2 by done. apply list_elem_of_singleton. done.
Qed.

(** The resolver by cases on the client and on the two answers of the
    inventory. *)
Lemma get_instance_ids_by_name_cases w names region :
  let q1 := Describe_by_tag region "tag:Name" names in
  let q2 := Describe_by_tag region "tag:Hostname" names in
  get_instance_ids_by_name w names region =
  match client_error w "ec2" region with
  | Some e => ([], Raise e)
  | None =>
      match describe_by_tag w region "tag:Name" names with
      | inl e =>
          if is_ClientError e then ([q1; Printed (Msg_describe_error e)], Exit 1)
          else ([q1], Raise e)
      | inr r1 =>
          match describe_by_tag w region "tag:Hostname" names with
          | inl e =>
              if is_ClientError e
              then ([q1; q2; Printed (Msg_describe_error e)], Exit 1)
              else ([q1; q2], Raise e)
          | inr r2 =>
              ([q1; q2],
               Return (set_to_list w (list_to_set (running_ids (r1 ++ r2)))))
          end
      end
  end.
Proof.
  unfold get_instance_ids_by_name, request, make_client.
  destruct (client_error w "ec2" region) as [e0|]; [reflexivity|].
  destruct (describe_by_tag w region "tag:Name" names) as [e1|r1];
    [destruct e1; reflexivity|].
  destruct (describe_by_tag w region "tag:Hostname" names) as [e2|r2];
    [destruct e2; reflexivity|].
  reflexivity.
Qed.

(** The resolver never submits a command. *)
Lemma get_instance_ids_by_name_no_send w names region :
  send_requests (fst (get_instance_ids_by_name w names region)) = [].
Proof.
  rewrite get_instance_ids_by_name_cases.
  destruct (client_error w "ec2" region) as [e0|]; [reflexivity|].
  destruct (describe_by_tag w region "tag:Name" names) as [e1|r1];
    [destruct e1; reflexivity|].
  destruct (describe_by_tag w region "tag:Hostname" names) as [e2|r2];
    [destruct e2; reflexivity|].
  reflexivity.
Qed.

(** C5: whatever the two inventory queries answer, the identifiers the
    resolver returns are exactly the identifiers of the instances in the two
    answers whose state is running, and none is returned twice, also when
    an instance is in both answers.  So when the answers give every
    instance one state, no returned identifier is that of an instance
    whose state is not running. *)
Theorem resolved_ids_running_NoDup w names region tr ids :
  get_instance_ids_by_name w names region = (tr, Return ids) ->
  NoDup ids
  /\ exists r1 r2,
       describe_by_tag w region "tag:Name" names = inr r1
       /\ describe_by_tag w region "tag:Hostname" names = inr r2
       /\ (forall id, id ∈ ids <->
             exists r inst, r ∈ r1 ++ r2 /\ inst ∈ Instances r
                            /\ InstanceId inst = id /\ State_Name inst = "running")
       /\ ((forall r r' inst inst',
              r ∈ r1 ++ r2 -> inst ∈ Instances r ->
              r' ∈ r1 ++ r2 -> inst' ∈ Instances r' ->
              InstanceId inst = InstanceId inst' ->
              State_Name inst = State_Name inst') ->
           forall r inst,
             r ∈ r1 ++ r2 -> inst ∈ Instances r -> InstanceId inst ∈ ids ->
             State_Name inst = "running").
Proof.
  rewrite get_instance_ids_by_name_cases.
  destruct (client_error w "ec2" region) as [e0|]; [discriminate|].
  destruct (describe_by_tag w region "tag:Name" names) as [e1|r1];
    [destruct e1; discriminate|].
  destruct (describe_by_tag w region "tag:Hostname" names) as [e2|r2];
    [destruct e2; discriminate|].
  intros [= _ <-]. split; [apply set_to_list_NoDup|].
  exists r1, r2. split; [done|]. split; [done|].
  assert (Hiff : forall id,
             id ∈ set_to_list w (list_to_set (running_ids (r1 ++ r2))) <->
             exists r inst, r ∈ r1 ++ r2 /\ inst ∈ Instances r
                            /\ InstanceId inst = id /\ State_Name inst = "running").
  { intros id. rewrite elem_of_set_to_list, elem_of_list_to_set.
    apply elem_of_running_ids. }
  split; [exact Hiff|].
  intros Hone r inst Hr Hinst Hin.
  apply Hiff in Hin as (r' & inst' & Hr' & Hinst' & Hid & Hrun).
  rewrite <- Hrun. by apply (Hone r r').
Qed.

Lemma resolved_ids_running_NoDup_witness :
  get_instance_ids_by_name demo_fleet_world ["web-1"] "us-east-1"
    = ([Describe_by_tag "us-east-1" "tag:Name" ["web-1"];
        Describe_by_tag "us-east-1" "tag:Hostname" ["web-1"]], Return ["i-0b2"])
  /\ NoDup ["i-0b2"].
Proof.
  split; [vm_compute; reflexivity|].
  apply (resolved_ids_running_NoDup demo_fleet_world ["web-1"] "us-east-1"
           [Describe_by_tag "us-east-1" "tag:Name" ["web-1"];
            Describe_by_tag "us-east-1" "tag:Hostname" ["web-1"]]).
  vm_compute; reflexivity.
Defined.

(** A resolver that returns has built its client. *)
Lemma get_instance_ids_by_name_client w names region tr ids :
  get_instance_ids_by_name w names region = (tr, Return ids) ->
  client_error w "ec2" region = None.
Proof.
  rewrite get_instance_ids_by_name_cases.
  destruct (client_error w "ec2" region) as [e0|]; [discriminate|done].
Qed.

(** ** Dispatch *)

(** The loop body by cases on detection and submission. *)
Lemma dispatch_one_cases w region services action id :
  let q := Describe_by_id region [id] in
  dispatch_one w region services action id =
  match detect w region id with
  | inl e => ([q; Printed (Msg_detect_failed id e)], Return tt)
  | inr platform =>
      let req := send_request_for services action id platform in
      match send_command w region req with
      | inr c => ([q; Send_command region req; Printed (Msg_sent id action c)], Return tt)
      | inl e =>
          if is_ClientError e
          then ([q; Send_command region req; Printed (Msg_send_error id e)], Return tt)
          else ([q; Send_command region req], Raise e)
      end
  end.
Proof.
  unfold dispatch_one, detect, request.
  destruct (describe_by_id w region [id]) as [e|info]; [reflexivity|].
  cbn.
  destruct (platform_of info) as [e|platform]; [reflexivity|].
  cbn.
  destruct (send_command w region (send_request_for services action id platform))
    as [e|c]; [destruct e; reflexivity | reflexivity].
Qed.

Lemma dispatch_all_cons w region services action id rest :
  dispatch_all w region services action (id :: rest) =
  match dispatch_one w region services action id with
  | (tr, Return _) =>
      (tr ++ fst (dispatch_all w region services action rest),
       snd (dispatch_all w region services action rest))
  | (tr, Exit n) => (tr, Exit n)
  | (tr, Raise e) => (tr, Raise e)
  end.
Proof.
  simpl. unfold bind.
  destruct (dispatch_one w region services action id) as [tr [[]|n|e]]; try reflexivity.
  by destruct (dispatch_all w region services action rest).
Qed.

Lemma send_requests_app tr1 tr2 :
  send_requests (tr1 ++ tr2) = send_requests tr1 ++ send_requests tr2.
Proof. apply omap_app. Qed.

(** [main] once the configuration is present. *)
Lemma main_present servers services action region_opt w :
  let env := Environ (Some servers) (Some services) (Some action) region_opt in
  let region := default "us-east-1" region_opt in
  config_present env = true ->
  main env w =
  match get_instance_ids_by_name w (server_list servers) region with
  | (tr, Return []) => (tr ++ [Printed (Msg_no_running (server_list servers))], Exit 1)
  | (tr, Return ids) =>
      match client_error w "ssm" region with
      | Some e => (tr, Raise e)
      | None =>
          (tr ++ fst (dispatch_all w region services action ids),
           snd (dispatch_all w region services action ids))
      end
  | (tr, Exit n) => (tr, Exit n)
  | (tr, Raise e) => (tr, Raise e)
  end.
Proof.
  intros env region Hp. unfold main, config_present in *. simpl in *.
  rewrite Hp. fold region. unfold bind.
  destruct (get_instance_ids_by_name w (server_list servers) region)
    as [tr [[|id ids]|n|e]] eqn:Hr; try reflexivity.
  apply get_instance_ids_by_name_client in Hr. unfold make_client. rewrite Hr.
  destruct (dispatch_all w region services action (id :: ids)) as [tr' o].
  destruct (client_error w "ssm" region) as [e|]; cbn; [|reflexivity].
  f_equal. apply app_nil_r.
Qed.

Lemma main_absent env w :
  config_present env = false ->
  main env w = ([], Raise (ValueError "Missing required env vars: servers, Service, Action")).
Proof.
  destruct env as [[s|] [v|] [a|] r]; unfold main, config_present; simpl;
    try reflexivity.
  intros ->. reflexivity.
Qed.

(** C6: when resolution returns no identifier, the process prints that no
    running instance was found and exits with status 1, and the whole run
    has made no request to the command channel. *)
Theorem empty_resolution_exits servers services action region_opt w tr :
  let env := Environ (Some servers) (Some services) (Some action) region_opt in
  config_present env = true ->
  get_instance_ids_by_name w (server_list servers) (default "us-east-1" region_opt)
    = (tr, Return []) ->
  main env w = (tr ++ [Printed (Msg_no_running (server_list servers))], Exit 1)
  /\ exit_code (main env w) = 1%Z
  /\ send_requests (fst (main env w)) = [].
Proof.
  intros env Hp Hr.
  pose proof (get_instance_ids_by_name_no_send w (server_list servers)
                (default "us-east-1" region_opt)) as Hns.
  rewrite Hr in Hns. simpl in Hns.
  assert (Hm : main env w
               = (tr ++ [Printed (Msg_no_running (server_list servers))], Exit 1)).
  { unfold env. rewrite main_present by exact Hp. by rewrite Hr. }
  rewrite Hm. split; [done|]. split; [done|].
  simpl. by rewrite send_requests_app, Hns.
Qed.

Lemma empty_resolution_exits_witness :
  main (Environ (Some "ghost") (Some "nginx") (Some "stop") None) demo_fleet_world
  = ([Describe_by_tag "us-east-1" "tag:Name" ["ghost"];
      Describe_by_tag "us-east-1" "tag:Hostname" ["ghost"];
      Printed (Msg_no_running ["ghost"])], Exit 1).
Proof.
  apply (empty_resolution_exits "ghost" "nginx" "stop" None demo_fleet_world
           [Describe_by_tag "us-east-1" "tag:Name" ["ghost"];
            Describe_by_tag "us-east-1" "tag:Hostname" ["ghost"]]);
    vm_compute; reflexivity.
Defined.

(** The claim C1 fails: with the action bogus, which is none of start, stop
    and restart, the run resolves the names, submits a script to the
    instance and ends with status 0. *)
Lemma invalid_action_is_dispatched :
  main (Environ (Some "web-1") (Some "nginx") (Some "bogus") None) demo_fleet_world
  = ([Describe_by_tag "us-east-1" "tag:Name" ["web-1"];
      Describe_by_tag "us-east-1" "tag:Hostname" ["web-1"];
      Describe_by_id "us-east-1" ["i-0b2"];
      Send_command "us-east-1"
        (Send_request ["i-0b2"] "AWS-RunShellScript" "Bogus services: nginx"
           [build_linux_script "nginx" "bogus"]);
      Printed (Msg_sent "i-0b2" "bogus" "cmd-i-0b2")], Return tt)
  /\ exit_code
       (main (Environ (Some "web-1") (Some "nginx") (Some "bogus") None) demo_fleet_world)
     = 0%Z.
Proof. split; vm_compute; reflexivity. Qed.

(** C8: for an instance whose record has no platform attribute the detected
    platform is Linux, and the loop body submits the Linux shell script with
    the document AWS-RunShellScript to that instance. *)
Theorem missing_platform_runs_shell_script
    w region services action id inst insts rest :
  describe_by_id w region [id] = inr (Reservation (inst :: insts) :: rest) ->
  Platform inst = None ->
  detect w region id = inr "Linux"
  /\ exists tr o,
       dispatch_one w region services action id
       = (Describe_by_id region [id]
          :: Send_command region
               (Send_request [id] "AWS-RunShellScript"
                  (capitalize action +:+ " services: " +:+ services)
                  [build_linux_script services action])
          :: tr, o).
Proof.
  intros Hd Hp.
  assert (Hdet : detect w region id = inr "Linux").
  { unfold detect. rewrite Hd. simpl. by rewrite Hp. }
  split; [exact Hdet|].
  rewrite dispatch_one_cases. cbv zeta. rewrite Hdet.
  change (send_request_for services action id "Linux")
    with (Send_request [id] "AWS-RunShellScript"
            (capitalize action +:+ " services: " +:+ services)
            [build_linux_script services action]).
  destruct (send_command w region _) as [e|c]; [destruct e|]; simpl; eauto.
Qed.

Lemma missing_platform_runs_shell_script_witness :
  dispatch_one demo_fleet_world "us-east-1" "nginx" "stop" "i-0b2"
  = ([Describe_by_id "us-east-1" ["i-0b2"];
      Send_command "us-east-1"
        (Send_request ["i-0b2"] "AWS-RunShellScript" "Stop services: nginx"
           [build_linux_script "nginx" "stop"]);
      Printed (Msg_sent "i-0b2" "stop" "cmd-i-0b2")], Return tt)
  /\ detect demo_fleet_world "us-east-1" "i-0b2" = inr "Linux".
Proof.
  split; [vm_compute; reflexivity|].
  apply (missing_platform_runs_shell_script demo_fleet_world "us-east-1" "nginx" "stop"
           "i-0b2" (Instance "i-0b2" "running" None) [] []);
    vm_compute; reflexivity.
Defined.

Lemma dispatch_one_detect_failed w region services action id e :
  detect w region id = inl e ->
  dispatch_one w region services action id
  = ([Describe_by_id region [id]; Printed (Msg_detect_failed id e)], Return tt).
Proof. intros Hd. rewrite dispatch_one_cases. cbv zeta. by rewrite Hd. Qed.

Lemma dispatch_one_sent w region services action id platform c :
  detect w region id = inr platform ->
  send_command w region (send_request_for services action id platform) = inr c ->
  dispatch_one w region services action id
  = ([Describe_by_id region [id];
      Send_command region (send_request_for services action id platform);
      Printed (Msg_sent id action c)], Return tt).
Proof. intros Hd Hs. rewrite dispatch_one_cases. cbv zeta. by rewrite Hd, Hs. Qed.

Lemma target_of_send_request_for services action id platform :
  Target_instanceIds (send_request_for services action id platform) = [id].
Proof. unfold send_request_for, select_script. by destruct (is_windows platform). Qed.

(** C4: with three resolved instances of which the second fails platform
    detection (and the other two are detected and accepted by the command
    channel), the loop looks up each of the three in turn, submits to the
    first and to the third the request built for its platform, and prints
    one line for each: the outcomes are, in order, sent,
    platformDetectFailed, sent.  The requests made to the command channel
    are exactly these two, so none targets the second instance, and the
    loop ends normally. *)
Theorem dispatch_skips_undetected_instance
    w region services action a b c pa pc ca cc e :
  detect w region a = inr pa ->
  detect w region b = inl e ->
  detect w region c = inr pc ->
  send_command w region (send_request_for services action a pa) = inr ca ->
  send_command w region (send_request_for services action c pc) = inr cc ->
  let run := dispatch_all w region services action [a; b; c] in
  run = ([Describe_by_id region [a];
          Send_command region (send_request_for services action a pa);
          Printed (Msg_sent a action ca);
          Describe_by_id region [b];
          Printed (Msg_detect_failed b e);
          Describe_by_id region [c];
          Send_command region (send_request_for services action c pc);
          Printed (Msg_sent c action cc)], Return tt)
  /\ outcomes (fst run) = [(a, sent ca); (b, platformDetectFailed); (c, sent cc)]
  /\ send_requests (fst run)
     = [send_request_for services action a pa;
        send_request_for services action c pc]
  /\ Forall (fun req => b ∉ Target_instanceIds req) (send_requests (fst run)).
Proof.
  intros Ha Hb Hc Hsa Hsc run.
  assert (Hab : a <> b) by (intros ->; congruence).
  assert (Hcb : c <> b) by (intros ->; congruence).
  unfold run. rewrite !dispatch_all_cons.
  rewrite (dispatch_one_sent _ _ _ _ _ _ _ Ha Hsa).
  rewrite (dispatch_one_detect_failed _ _ _ _ _ _ Hb).
  rewrite (dispatch_one_sent _ _ _ _ _ _ _ Hc Hsc).
  simpl. split; [reflexivity|]. split; [reflexivity|]. split; [reflexivity|].
  repeat constructor; rewrite target_of_send_request_for;
    intros Hin; apply list_elem_of_singleton in Hin; congruence.
Qed.

Lemma dispatch_skips_undetected_instance_witness :
  outcomes (fst (dispatch_all (trio_world send_ok) "us-east-1" "nginx" "start"
                   ["i-1"; "i-2"; "i-3"]))
  = [("i-1", sent "cmd-i-1"); ("i-2", platformDetectFailed); ("i-3", sent "cmd-i-3")]
  /\ send_requests (fst (dispatch_all (trio_world send_ok) "us-east-1" "nginx"
                           "start" ["i-1"; "i-2"; "i-3"]))
     = [Send_request ["i-1"] "AWS-RunPowerShellScript" "Start services: nginx"
          [build_windows_script "nginx" "start"];
        Send_request ["i-3"] "AWS-RunShellScript" "Start services: nginx"
          [build_linux_script "nginx" "start"]].
Proof.
  pose proof (dispatch_skips_undetected_instance (trio_world send_ok) "us-east-1"
                "nginx" "start" "i-1" "i-2" "i-3" "windows" "Linux" "cmd-i-1"
                "cmd-i-3" (ClientError "InvalidInstanceID.NotFound")
                eq_refl eq_refl eq_refl eq_refl eq_refl) as (_ & Ho & Hs & _).
  split; [exact Ho | exact Hs].
Defined.

(** ** Submission failures *)

Lemma dispatch_all_client_errors w region services action ids :
  (forall req e, send_command w region req = inl e -> is_ClientError e = true) ->
  let run := dispatch_all w region services action ids in
  snd run = Return tt
  /\ outcomes (fst run) = map (fun id => (id, status_of w region services action id)) ids
  /\ send_requests (fst run) = omap (expected_request w region services action) ids.
Proof.
  intros Hce. induction ids as [|id ids (IHo & IHs & IHr)]; [done|].
  cbv zeta in *. rewrite dispatch_all_cons, dispatch_one_cases. cbv zeta.
  unfold status_of, expected_request. simpl.
  destruct (detect w region id) as [e|platform].
  - simpl. by rewrite IHs, IHr.
  - destruct (send_command w region (send_request_for services action id platform))
      as [e|c] eqn:Hs.
    + rewrite (Hce _ _ Hs). simpl. by rewrite IHs, IHr.
    + simpl. by rewrite IHs, IHr.
Qed.

(** The loop over a list in two pieces, when the first piece ends normally. *)
Lemma dispatch_all_app w region services action pre rest :
  snd (dispatch_all w region services action pre) = Return tt ->
  dispatch_all w region services action (pre ++ rest)
  = (fst (dispatch_all w region services action pre)
       ++ fst (dispatch_all w region services action rest),
     snd (dispatch_all w region services action rest)).
Proof.
  induction pre as [|id pre IH]; intros Hpre.
  { simpl. by destruct (dispatch_all w region services action rest). }
  rewrite <- app_comm_cons, !dispatch_all_cons.
  rewrite dispatch_all_cons in Hpre.
  destruct (dispatch_one w region services action id) as [tr [[]|n|e]];
    simpl in *; try discriminate.
  rewrite IH by exact Hpre. simpl. by rewrite app_assoc.
Qed.

(** When every failure of a submission is a ClientError, which is what the
    handler catches, each failure is printed and the loop goes on.  The run
    reaches the end of [main] and exits with status 0 however many
    submissions failed; every resolved instance gets one outcome, in order;
    and the command channel receives one request for each instance whose
    platform was detected and no second one. *)
Lemma client_errors_do_not_stop_the_loop
    servers services action region_opt w tr ids :
  let env := Environ (Some servers) (Some services) (Some action) region_opt in
  let region := default "us-east-1" region_opt in
  (forall req e, send_command w region req = inl e -> is_ClientError e = true) ->
  config_present env = true ->
  get_instance_ids_by_name w (server_list servers) region = (tr, Return ids) ->
  client_error w "ssm" region = None ->
  ids <> [] ->
  let run := dispatch_all w region services action ids in
  main env w = (tr ++ fst run, Return tt)
  /\ exit_code (main env w) = 0%Z
  /\ outcomes (fst run) = map (fun id => (id, status_of w region services action id)) ids
  /\ send_requests (fst run) = omap (expected_request w region services action) ids.
Proof.
  intros env region Hce Hp Hr Hssm Hne run. subst run.
  destruct (dispatch_all_client_errors w region services action ids Hce)
    as (Ho & Hs & Hq).
  assert (Hm : main env w
               = (tr ++ fst (dispatch_all w region services action ids), Return tt)).
  { unfold env. rewrite main_present by exact Hp. fold region. rewrite Hr, Hssm.
    rewrite <- Ho. by destruct ids. }
  rewrite Hm. done.
Qed.

(** C7: what the code does when a submission fails.  Let the resolved
    instances be [pre], then [id], then [rest], let the loop get through
    [pre], and let the submission for [id] raise [e].  When [e] is a
    ClientError the handler prints the failure and the loop goes on with
    [rest], as the claim says.  When [e] is any other exception, such as a
    transport failure, the handler does not catch it: the run ends there in
    [e] with status 1, no line is printed for [id], and no instance of
    [rest] is looked up or sent a command.  The handler of platform
    detection, three lines above in the same loop, catches every
    exception. *)
Theorem submission_handler_catches_only_ClientError
    servers services action region_opt w tr pre id rest platform e :
  let env := Environ (Some servers) (Some services) (Some action) region_opt in
  let region := default "us-east-1" region_opt in
  let req := send_request_for services action id platform in
  let before := fst (dispatch_all w region services action pre) in
  config_present env = true ->
  get_instance_ids_by_name w (server_list servers) region
    = (tr, Return (pre ++ id :: rest)) ->
  client_error w "ssm" region = None ->
  snd (dispatch_all w region services action pre) = Return tt ->
  detect w region id = inr platform ->
  send_command w region req = inl e ->
  if is_ClientError e
  then main env w
       = (tr ++ before
             ++ [Describe_by_id region [id]; Send_command region req;
                 Printed (Msg_send_error id e)]
             ++ fst (dispatch_all w region services action rest),
          snd (dispatch_all w region services action rest))
  else main env w
       = (tr ++ before ++ [Describe_by_id region [id]; Send_command region req],
          Raise e)
       /\ exit_code (main env w) = 1%Z
       /\ outcomes (fst (main env w)) = outcomes tr ++ outcomes before
       /\ send_requests (fst (main env w))
          = send_requests tr ++ send_requests before ++ [req].
Proof.
  intros env region req before Hp Hr Hssm Hpre Hd Hs.
  assert (Hm : main env w
               = (tr ++ fst (dispatch_all w region services action (pre ++ id :: rest)),
                  snd (dispatch_all w region services action (pre ++ id :: rest)))).
  { unfold env. rewrite main_present by exact Hp. fold region. rewrite Hr, Hssm.
    by destruct pre. }
  rewrite dispatch_all_app in Hm by exact Hpre. fold before in Hm.
  rewrite dispatch_all_cons, dispatch_one_cases in Hm. cbv zeta in Hm.
  rewrite Hd in Hm. fold req in Hm. rewrite Hs in Hm.
  destruct (is_ClientError e); rewrite Hm; [reflexivity|].
  split; [reflexivity|]. split; [reflexivity|]. cbn [fst]. split.
  - unfold outcomes. rewrite !omap_app. cbn. by rewrite app_nil_r.
  - rewrite !send_requests_app. reflexivity.
Qed.

Lemma submission_handler_catches_only_ClientError_witness :
  main (Environ (Some "app") (Some "nginx") (Some "stop") None)
    (trio_world send_unreachable)
  = ([Describe_by_tag "us-east-1" "tag:Name" ["app"];
          Describe_by_tag "us-east-1" "tag:Hostname" ["app"];
          Describe_by_id "us-east-1" ["i-3"];
          Send_command "us-east-1"
            (Send_request ["i-3"] "AWS-RunShellScript" "Stop services: nginx"
               [build_linux_script "nginx" "stop"])],
         Raise (OtherException "EndpointConnectionError"))
  /\ exit_code (main (Environ (Some "app") (Some "nginx") (Some "stop") None)
                  (trio_world send_unreachable)) = 1%Z.
Proof.
  pose proof (submission_handler_catches_only_ClientError "app" "nginx" "stop" None
                (trio_world send_unreachable)
                [Describe_by_tag "us-east-1" "tag:Name" ["app"];
                 Describe_by_tag "us-east-1" "tag:Hostname" ["app"]]
                [] "i-3" ["i-1"; "i-2"] "Linux"
                (OtherException "EndpointConnectionError")
                eq_refl eq_refl eq_refl eq_refl eq_refl eq_refl) as (Hm & He & _).
  split; [exact Hm | exact He].
Defined.

(** An unreachable command channel, run from the start: the three names
    resolve, the first submission raises an exception that is not a
    ClientError, and the run ends in it with status 1 after the first
    instance, with no outcome reported for any of the three. *)
Lemma unreachable_channel_stops_the_run :
  fst (get_instance_ids_by_name (trio_world send_unreachable) (server_list "app") "us-east-1")
    ++ [Describe_by_id "us-east-1" ["i-3"];
        Send_command "us-east-1"
          (Send_request ["i-3"] "AWS-RunShellScript" "Stop services: nginx"
             [build_linux_script "nginx" "stop"])]
  = fst (main (Environ (Some "app") (Some "nginx") (Some "stop") None)
           (trio_world send_unreachable))
  /\ snd (get_instance_ids_by_name (trio_world send_unreachable) (server_list "app")
            "us-east-1") = Return ["i-3"; "i-1"; "i-2"]
  /\ snd (main (Environ (Some "app") (Some "nginx") (Some "stop") None)
            (trio_world send_unreachable))
     = Raise (OtherException "EndpointConnectionError")
  /\ exit_code (main (Environ (Some "app") (Some "nginx") (Some "stop") None)
                  (trio_world send_unreachable)) = 1%Z
  /\ outcomes (fst (main (Environ (Some "app") (Some "nginx") (Some "stop") None)
                      (trio_world send_unreachable))) = [].
Proof. repeat split; vm_compute; reflexivity. Qed.

(** ** The Linux script on a host *)

Section Linux_script.
Context {H : Type}.
Variable grep_units : H -> string -> bool.
Variable systemctl : H -> string -> string -> H * bool.

Abbreviation exec := (Sh.exec grep_units systemctl).
Abbreviation step := (linux_start_step grep_units systemctl).

Lemma getvar_insert vs (h : H) o x v : Sh.getvar (Sh.State (<[x:=v]> vs) h o) x = v.
Proof. unfold Sh.getvar. simpl. by rewrite lookup_insert_eq. Qed.

Lemma getvar_setvar (st : Sh.state (H:=H)) x v : Sh.getvar (Sh.setvar x v st) x = v.
Proof. apply getvar_insert. Qed.

Lemma plain_literals :
  Sh.plain "start" = true /\ Sh.plain "Started " = true
  /\ Sh.plain "Failed to start " = true /\ Sh.plain "Error: " = true
  /\ Sh.plain " not found on this system" = true.
Proof. repeat split; reflexivity. Qed.

(** One round of the loop with the action start. *)
Lemma linux_body_start (st : Sh.state) svc :
  exists vs,
    exec (linux_body "start") (Sh.setvar "svc" svc st)
    = Some (Sh.State vs (fst (step (Sh.host st, Sh.out st) svc))
                        (snd (step (Sh.host st, Sh.out st) svc))).
Proof.
  destruct plain_literals as (P1 & P2 & P3 & P4 & P5).
  unfold linux_body, linux_act, linux_start_step.
  cbn [Sh.exec Sh.exec_tail Sh.run_simple Sh.expand Sh.expand_part fst snd].
  rewrite ?P1, ?P2, ?P3, ?P4, ?P5, !getvar_setvar, !append_empty_r.
  cbn [Sh.host Sh.setvar Sh.out Sh.vars].
  destruct (grep_units (Sh.host st) svc).
  - rewrite bool_decide_eq_true_2 by reflexivity.
    cbn [Sh.exec Sh.exec_tail Sh.run_simple Sh.expand Sh.expand_part fst snd Sh.host].
    destruct (systemctl (Sh.host st) "start" svc) as [h' []];
      cbn [Sh.host Sh.out Sh.vars fst snd fmap option_fmap option_map];
      rewrite ?P2, ?P3, ?getvar_setvar, ?getvar_insert, ?append_empty_r; eauto.
  - cbn [Sh.exec Sh.exec_tail Sh.run_simple Sh.expand Sh.expand_part fst snd Sh.host
           fmap option_fmap option_map].
    rewrite ?P4, ?P5, ?getvar_setvar, ?getvar_insert, ?append_empty_r.
    cbn [Sh.host Sh.out Sh.vars fst snd fmap option_fmap option_map]. eauto.
Qed.

Lemma linux_for_each_start vs (st : Sh.state) :
  exists vars',
    Sh.for_each (exec (linux_body "start")) "svc" vs st
    = Some (Sh.State vars' (fst (foldl step (Sh.host st, Sh.out st) vs))
                           (snd (foldl step (Sh.host st, Sh.out st) vs))).
Proof.
  revert st. induction vs as [|v vs IH]; intros st.
  - exists (Sh.vars st). by destruct st.
  - cbn [Sh.for_each foldl].
    destruct (linux_body_start st v) as (vars1 & ->).
    destruct (IH (Sh.State vars1
                    (fst (step (Sh.host st, Sh.out st) v))
                    (snd (step (Sh.host st, Sh.out st) v)))) as (vars' & ->).
    exists vars'. cbn [Sh.host Sh.out].
    by destruct (step (Sh.host st, Sh.out st) v).
Qed.

(** The script with the action start: one step for each field of the
    service list, in order. *)
Lemma linux_start_run services (h : H) :
  Sh.plain services = true ->
  forallb Sh.no_glob (Sh.fields services) = true ->
  Sh.run grep_units systemctl (linux_program services "start") h
  = Some (foldl step (h, []) (Sh.fields services)).
Proof.
  intros Hp Hg. unfold Sh.run, linux_program.
  cbn [Sh.exec Sh.expand Sh.expand_part]. rewrite Hp, append_empty_r.
  rewrite getvar_setvar, Hg.
  destruct (linux_for_each_start (Sh.fields services)
              (Sh.setvar "services" services (Sh.State ∅ h []))) as (vars' & ->).
  cbn [Sh.host Sh.out Sh.setvar].
  by destruct (foldl step (h, []) (Sh.fields services)).
Qed.
End Linux_script.

(** ** The Windows script on a host *)

Section Windows_script.
Context {H : Type}.
Variable get_service : H -> string -> string + Ps.service.
Variable control : H -> Ps.cmdlet -> string -> H * option string.

Abbreviation pexec := (Ps.exec get_service control).
Abbreviation pstep := (windows_start_step get_service control).

Lemma ps_plain_literals :
  Ps.plain "start" = true /\ Ps.plain "Started " = true
  /\ Ps.plain " already running" = true /\ Ps.plain "Error with " = true
  /\ Ps.plain ": " = true /\ Ps.plain "Running" = true /\ Ps.plain "," = true.
Proof. repeat split; reflexivity. Qed.

(** The line the handler of the [try] prints. *)
Lemma eval_error_message vs (h : H) lines svc msg :
  vs !! "svc" = Some (Ps.VStr svc) ->
  Ps.eval (Ps.setvar "_" (Ps.VStr msg) (Ps.State vs h lines))
    (Ps.Add (Ps.Add (Ps.Add (Ps.Str "Error with ") (Ps.Var "svc")) (Ps.Str ": "))
            (Ps.Var "_"))
  = Some (Ps.VStr ("Error with " +:+ svc +:+ ": " +:+ msg)).
Proof.
  intros Hsvc. destruct ps_plain_literals as (_ & _ & _ & P4 & P5 & _).
  cbn [Ps.eval Ps.setvar Ps.vars Ps.host Ps.out]. rewrite P4, P5.
  rewrite lookup_insert_ne by done. rewrite Hsvc, lookup_insert_eq.
  by rewrite !append_assoc.
Qed.

Lemma name_arg_lookup vs (h : H) o a v :
  vs !! a = Some (Ps.VStr v) -> Ps.no_wildcard v = true ->
  Ps.name_arg (Ps.State vs h o) a = Some v.
Proof. intros Hl Hw. unfold Ps.name_arg. simpl. by rewrite Hl, Hw. Qed.

Lemma eval_name_then vs (h : H) o x sv lit :
  vs !! x = Some (Ps.VSvc sv) -> Ps.plain lit = true ->
  Ps.eval (Ps.State vs h o) (Ps.Add (Ps.Member x "DisplayName") (Ps.Str lit))
  = Some (Ps.VStr (Ps.DisplayName sv +:+ lit)).
Proof. intros Hl Hp. cbn [Ps.eval Ps.vars]. by rewrite Hl, Hp. Qed.

Lemma eval_then_name vs (h : H) o x sv lit :
  vs !! x = Some (Ps.VSvc sv) -> Ps.plain lit = true ->
  Ps.eval (Ps.State vs h o) (Ps.Add (Ps.Str lit) (Ps.Member x "DisplayName"))
  = Some (Ps.VStr (lit +:+ Ps.DisplayName sv)).
Proof. intros Hl Hp. cbn [Ps.eval Ps.vars]. by rewrite Hl, Hp. Qed.

Lemma test_not_running vs (h : H) o x sv :
  vs !! x = Some (Ps.VSvc sv) ->
  Ps.test (Ps.State vs h o) (Ps.Ne (Ps.Member x "Status") (Ps.Str "Running"))
  = Some (negb (bool_decide (Ps.Status sv = Ps.Running))).
Proof. intros Hl. simpl. by rewrite Hl. Qed.

Lemma test_action_start (st : Ps.state (H:=H)) :
  Ps.test st (Ps.Eq (Ps.Str "start") (Ps.Str "start")) = Some true.
Proof. reflexivity. Qed.

(** One round of the loop with the action start. *)
Lemma windows_body_start (st : Ps.state) svc :
  Ps.no_wildcard svc = true ->
  exists vs,
    pexec (windows_body "start") (Ps.setvar "svc" (Ps.VStr svc) st)
    = Some (Ps.Done (Ps.State vs (fst (pstep (Ps.host st, Ps.out st) svc))
                                 (snd (pstep (Ps.host st, Ps.out st) svc)))).
Proof.
  intros Hw. destruct ps_plain_literals as (P1 & P2 & P3 & P4 & P5 & P6 & P7).
  destruct st as [vs h lines].
  unfold windows_body, windows_guarded, windows_act, windows_start_step, Ps.setvar.
  cbn [Ps.vars Ps.host Ps.out fst snd].
  set (vs1 := <["svc" := Ps.VStr svc]> vs).
  assert (Hsvc : vs1 !! "svc" = Some (Ps.VStr svc)) by apply lookup_insert_eq.
  cbn [Ps.exec]. rewrite (name_arg_lookup vs1 h lines _ _ Hsvc Hw).
  cbn [Ps.call Ps.host].
  destruct (get_service h svc) as [msg|sv].
  - rewrite (eval_error_message _ _ _ svc) by exact Hsvc.
    cbn [Ps.setvar Ps.vars Ps.host Ps.out fst snd]. eauto.
  - set (vs2 := <["s" := Ps.VSvc sv]> vs1).
    assert (Hs : vs2 !! "s" = Some (Ps.VSvc sv)) by apply lookup_insert_eq.
    assert (Hsvc2 : vs2 !! "svc" = Some (Ps.VStr svc)).
    { unfold vs2. by rewrite lookup_insert_ne. }
    change (Ps.setvar "s" (Ps.VSvc sv) (Ps.State vs1 h lines))
      with (Ps.State vs2 h lines).
    cbn [Ps.exec_tail].
    rewrite test_action_start, (test_not_running vs2 h lines _ _ Hs).
    destruct (bool_decide (Ps.Status sv = Ps.Running)); cbn [negb].
    + rewrite (eval_name_then vs2 h lines _ _ _ Hs P3).
      cbn [Ps.vars Ps.host Ps.out fst snd]. eauto.
    + rewrite (name_arg_lookup vs2 h lines _ _ Hsvc2 Hw).
      cbn [Ps.call Ps.host Ps.vars Ps.out].
      destruct (control h Ps.Start_Service svc) as [h' [msg|]]; cbn [fst snd].
      * rewrite (eval_error_message _ _ _ svc) by exact Hsvc2.
        cbn [Ps.setvar Ps.vars Ps.host Ps.out fst snd]. eauto.
      * rewrite (eval_then_name vs2 h' lines _ _ _ Hs P2).
        cbn [Ps.vars Ps.host Ps.out fst snd]. eauto.
Qed.

Lemma windows_for_each_start vs (st : Ps.state) :
  forallb Ps.no_wildcard vs = true ->
  exists vars',
    Ps.for_each (pexec (windows_body "start")) "svc" vs st
    = Some (Ps.Done (Ps.State vars' (fst (foldl pstep (Ps.host st, Ps.out st) vs))
                                    (snd (foldl pstep (Ps.host st, Ps.out st) vs)))).
Proof.
  revert st. induction vs as [|v vs IH]; intros st Hw.
  - exists (Ps.vars st). by destruct st.
  - cbn [forallb] in Hw. apply andb_true_iff in Hw as [Hv Hvs].
    cbn [Ps.for_each foldl].
    destruct (windows_body_start st v Hv) as (vars1 & ->).
    destruct (IH (Ps.State vars1
                    (fst (pstep (Ps.host st, Ps.out st) v))
                    (snd (pstep (Ps.host st, Ps.out st) v))) Hvs) as (vars' & ->).
    exists vars'. cbn [Ps.host Ps.out].
    by destruct (pstep (Ps.host st, Ps.out st) v).
Qed.

Lemma all_chars_split P sep s :
  all_chars P s = true -> forallb (all_chars P) (Py.split sep s) = true.
Proof.
  induction s as [|c s IH]; [done|]. simpl.
  intros [Hc Hs]%andb_true_iff. specialize (IH Hs).
  destruct (Ascii.eqb c sep); [done|].
  destruct (Py.split sep s) as [|w ws]; simpl in *.
  - by rewrite Hc.
  - apply andb_true_iff in IH as [Hw Hws]. by rewrite Hc, Hw, Hws.
Qed.

(** The script with the action start: one step for each element of the
    service list split at the commas, in order. *)
Lemma windows_start_run services (h : H) :
  Ps.plain services = true ->
  Ps.no_wildcard services = true ->
  Ps.run get_service control (windows_program services "start") h
  = Some (foldl pstep (h, []) (Py.split comma services)).
Proof.
  intros Hp Hw. destruct ps_plain_literals as (_ & _ & _ & _ & _ & _ & P7).
  unfold Ps.run, windows_program.
  cbn [Ps.exec Ps.eval]. rewrite Hp, P7.
  change (bool_decide ("," = ",")) with true. cbv iota.
  change (Ps.setvar "services" (Ps.VArr (Py.split comma services)) (Ps.State ∅ h []))
    with (Ps.State (<["services" := Ps.VArr (Py.split comma services)]> ∅) h []).
  cbn [Ps.vars]. rewrite lookup_insert_eq.
  destruct (windows_for_each_start (Py.split comma services)
              (Ps.State (<["services" := Ps.VArr (Py.split comma services)]> ∅) h [])
              (all_chars_split _ comma services Hw)) as (vars' & ->).
  cbn [Ps.host Ps.out].
  by destruct (foldl pstep (h, []) (Py.split comma services)).
Qed.
End Windows_script.

(** ** Service names *)

Lemma all_chars_impl (P Q : ascii -> bool) s :
  (forall c, P c = true -> Q c = true) ->
  all_chars P s = true -> all_chars Q s = true.
Proof.
  intros HPQ. induction s as [|c s IH]; [done|]. simpl.
  intros [Hc Hs]%andb_true_iff. by rewrite (HPQ c Hc), (IH Hs).
Qed.

Lemma name_char_cases c :
  name_char c = true ->
  negb (is_one_of [34; 36; 92; 96]%nat c) = true
  /\ negb (is_one_of [42; 63; 91]%nat c) = true
  /\ Py.in_range 32 126 c && negb (is_one_of [34; 36; 96]%nat c) = true
  /\ negb (is_one_of [42; 63; 91; 93]%nat c) = true
  /\ Sh.is_ifs c = false
  /\ Ascii.eqb c comma = false.
Proof.
  destruct c as [[] [] [] [] [] [] [] []]; vm_compute; intros E;
    first [discriminate E | repeat split; reflexivity].
Qed.

Lemma service_name_chars svc :
  service_name svc = true ->
  svc <> EmptyString /\ all_chars name_char svc = true.
Proof.
  unfold service_name. intros [Ht Hc]%andb_true_iff. split; [|exact Hc].
  by destruct svc.
Qed.

Lemma fields_one_name svc :
  svc <> EmptyString -> all_chars name_char svc = true -> Sh.fields svc = [svc].
Proof.
  induction svc as [|c s IH]; [done|]. intros _. simpl.
  intros [Hc Hs]%andb_true_iff.
  destruct (name_char_cases c Hc) as (_ & _ & _ & _ & -> & _).
  destruct s as [|c' s']; [done|].
  assert (Hc' : name_char c' = true).
  { simpl in Hs. by apply andb_true_iff in Hs as [? _]. }
  destruct (name_char_cases c' Hc') as (_ & _ & _ & _ & -> & _).
  by rewrite IH.
Qed.

Lemma split_one_name svc :
  all_chars name_char svc = true -> Py.split comma svc = [svc].
Proof.
  induction svc as [|c s IH]; [done|]. simpl.
  intros [Hc Hs]%andb_true_iff.
  destruct (name_char_cases c Hc) as (_ & _ & _ & _ & _ & ->).
  by rewrite (IH Hs).
Qed.

(** A service name is a literal of both fragments, and both loops make one
    round for it. *)
Lemma service_name_fragments svc :
  service_name svc = true ->
  Sh.plain svc = true /\ forallb Sh.no_glob (Sh.fields svc) = true
  /\ Sh.fields svc = [svc]
  /\ Ps.plain svc = true /\ Ps.no_wildcard svc = true
  /\ Py.split comma svc = [svc].
Proof.
  intros (Hne & Hc)%service_name_chars.
  assert (Hg : Sh.no_glob svc = true).
  { revert Hc. apply all_chars_impl. intros c Hcc.
    by destruct (name_char_cases c Hcc) as (_ & ? & _). }
  rewrite (fields_one_name svc Hne Hc), (split_one_name svc Hc).
  split; [|split; [|split; [|split; [|split]]]]; try reflexivity.
  - revert Hc. apply all_chars_impl. intros c Hcc.
    by destruct (name_char_cases c Hcc) as (? & _).
  - simpl. by rewrite Hg.
  - revert Hc. apply all_chars_impl. intros c Hcc.
    by destruct (name_char_cases c Hcc) as (_ & _ & ? & _).
  - revert Hc. apply all_chars_impl. intros c Hcc.
    by destruct (name_char_cases c Hcc) as (_ & _ & _ & ? & _).
Qed.




(** C2 on the code: the Linux script splits the service list at blanks, not
    at commas.  For the list nginx,redis the loop makes one round, for the
    name nginx,redis as a whole, on every host; on a host with both units it
    reports that name as not found and nothing about nginx or redis.  The
    Windows script for the same list handles the two services one by one. *)
Theorem linux_script_reads_comma_list_as_one_name :
  build_linux_script "nginx,redis" "start"
  = nl +:+ Sh.print 0 (linux_program "nginx,redis" "start")
  /\ Sh.fields "nginx,redis" = ["nginx,redis"]
  /\ (forall (H : Type) grep_units systemctl (h : H),
        Sh.run grep_units systemctl (linux_program "nginx,redis" "start") h
        = Some (linux_start_step grep_units systemctl (h, []) "nginx,redis"))
  /\ Sh.run linux_grep linux_systemctl (linux_program "nginx,redis" "start")
       nginx_redis_stopped
     = Some (nginx_redis_stopped, ["Error: nginx,redis not found on this system"])
  /\ Sh.run linux_grep linux_systemctl (linux_program "nginx redis" "start")
       nginx_redis_stopped
     = Some (Linux_host ["nginx"; "redis"] ["nginx"; "redis"]
               [("start", "nginx"); ("start", "redis")],
             ["Started nginx"; "Started redis"])
  /\ snd <$> Ps.run windows_get_service windows_control
               (windows_program "nginx,redis" "start") windows_nginx_redis
     = Some ["Nginx Web Server already running"; "Started Redis"].
Proof.
  split; [apply build_linux_script_program|].
  split; [reflexivity|]. split.
  - intros H grep_units systemctl h. by rewrite linux_start_run.
  - repeat split; vm_compute; reflexivity.
Qed.

(** * Further properties of the driver *)

(** ** Failing inventory queries *)

(** X1: when the resolver has built its client and a tag query fails, the
    whole run stops with status 1 before any instance is looked up or sent
    a command.  A failure of the first query leaves the second one unmade;
    a ClientError is printed before the exit, any other exception escapes
    uncaught. *)
Theorem inventory_failure_aborts_run servers services action region_opt w :
  let env := Environ (Some servers) (Some services) (Some action) region_opt in
  let region := default "us-east-1" region_opt in
  let q1 := Describe_by_tag region "tag:Name" (server_list servers) in
  let q2 := Describe_by_tag region "tag:Hostname" (server_list servers) in
  config_present env = true ->
  client_error w "ec2" region = None ->
  (forall e,
     describe_by_tag w region "tag:Name" (server_list servers) = inl e ->
     main env w = (q1 :: describe_failure_lines e, describe_failure_end e)
     /\ exit_code (main env w) = 1%Z)
  /\ (forall r1 e,
        describe_by_tag w region "tag:Name" (server_list servers) = inr r1 ->
        describe_by_tag w region "tag:Hostname" (server_list servers) = inl e ->
        main env w = (q1 :: q2 :: describe_failure_lines e, describe_failure_end e)
        /\ exit_code (main env w) = 1%Z).
Proof.
  intros env region q1 q2 Hp Hc.
  pose proof (main_present servers services action region_opt w Hp) as Hm.
  cbv zeta in Hm. fold env region in Hm.
  rewrite get_instance_ids_by_name_cases in Hm. cbv zeta in Hm.
  rewrite Hc in Hm. fold q1 q2 in Hm.
  split.
  - intros e He. rewrite He in Hm. rewrite Hm.
    unfold describe_failure_lines, describe_failure_end.
    by destruct (is_ClientError e).
  - intros r1 e H1 H2. rewrite H1, H2 in Hm. rewrite Hm.
    unfold describe_failure_lines, describe_failure_end.
    by destruct (is_ClientError e).
Qed.

Lemma inventory_failure_aborts_run_witness :
  main (Environ (Some "web-1") (Some "nginx") (Some "stop") None) throttled_world
  = ([Describe_by_tag "us-east-1" "tag:Name" ["web-1"];
      Printed (Msg_describe_error (ClientError "RequestLimitExceeded"))], Exit 1).
Proof.
  apply (proj1 (inventory_failure_aborts_run "web-1" "nginx" "stop" None throttled_world
                  eq_refl eq_refl)
           (ClientError "RequestLimitExceeded")).
  reflexivity.
Defined.

(** ** Looking up an instance *)

(** X2: when the lookup of an instance answers without a record (no
    reservation, or a first reservation without instances), indexing fails
    and the instance is handled as a detection failure: one line is printed,
    nothing is submitted and the loop goes on.  When there is a record, only
    the first instance of the first reservation is read. *)
Theorem empty_lookup_is_detection_failure w region services action id info :
  describe_by_id w region [id] = inr info ->
  (info = [] \/ (exists rest, info = Reservation [] :: rest) ->
   dispatch_one w region services action id
   = ([Describe_by_id region [id];
       Printed (Msg_detect_failed id (IndexError "list index out of range"))],
      Return tt))
  /\ (forall inst insts rest,
        info = Reservation (inst :: insts) :: rest ->
        detect w region id = inr (default "Linux" (Platform inst))).
Proof.
  intros Hd. split.
  - intros Hempty. apply dispatch_one_detect_failed.
    unfold detect. rewrite Hd.
    destruct Hempty as [-> | (rest & ->)]; reflexivity.
  - intros inst insts rest ->. unfold detect. by rewrite Hd.
Qed.

Lemma empty_lookup_is_detection_failure_witness :
  dispatch_one demo_fleet_world "us-east-1" "nginx" "stop" "i-gone"
  = ([Describe_by_id "us-east-1" ["i-gone"];
      Printed (Msg_detect_failed "i-gone" (IndexError "list index out of range"))],
     Return tt).
Proof.
  apply (proj1 (empty_lookup_is_detection_failure demo_fleet_world "us-east-1" "nginx"
                  "stop" "i-gone" [] eq_refl)).
  by left.
Defined.

(** ** What is submitted *)

Lemma send_requests_dispatch_one w region services action id :
  send_requests (fst (dispatch_one w region services action id))
  = option_list (expected_request w region services action id).
Proof.
  rewrite dispatch_one_cases. cbv zeta. unfold expected_request.
  destruct (detect w region id) as [e|platform]; [reflexivity|].
  destruct (send_command w region _) as [e|c]; [destruct e|]; reflexivity.
Qed.

Lemma dispatch_one_never_exits w region services action id n :
  snd (dispatch_one w region services action id) <> Exit n.
Proof.
  rewrite dispatch_one_cases. cbv zeta.
  destruct (detect w region id) as [e|platform]; [discriminate|].
  destruct (send_command w region _) as [e|c]; [destruct e|]; discriminate.
Qed.

Lemma expected_request_shape w region services action id req :
  expected_request w region services action id = Some req ->
  Target_instanceIds req = [id]
  /\ length (commands req) = 1
  /\ (DocumentName req = "AWS-RunPowerShellScript"
      \/ DocumentName req = "AWS-RunShellScript").
Proof.
  unfold expected_request, send_request_for, select_script.
  destruct (detect w region id) as [e|platform]; [discriminate|].
  destruct (is_windows platform); intros [= <-]; simpl; eauto.
Qed.


(** ** What a zero status means *)

Lemma outcomes_dispatch_one_returned w region services action id tr :
  dispatch_one w region services action id = (tr, Return tt) ->
  map fst (outcomes tr) = [id].
Proof.
  rewrite dispatch_one_cases. cbv zeta.
  destruct (detect w region id) as [e|platform]; [by intros [= <-]|].
  destruct (send_command w region _) as [e|c]; [destruct e|];
    intros [= <-]; reflexivity.
Qed.

Lemma dispatch_all_returned w region services action ids :
  (forall n, snd (dispatch_all w region services action ids) <> Exit n)
  /\ (snd (dispatch_all w region services action ids) = Return tt ->
      map fst (outcomes (fst (dispatch_all w region services action ids))) = ids).
Proof.
  induction ids as [|id ids (IHe & IHr)]; [split; [discriminate | reflexivity]|].
  rewrite dispatch_all_cons.
  pose proof (dispatch_one_never_exits w region services action id) as Hne.
  pose proof (outcomes_dispatch_one_returned w region services action id) as Ho.
  destruct (dispatch_one w region services action id) as [tr [[]|n|e]]; simpl in *.
  - split; [exact IHe|]. intros Hr.
    unfold outcomes in *. rewrite omap_app, map_app.
    by rewrite (Ho tr eq_refl), (IHr Hr).
  - by destruct (Hne n).
  - split; discriminate.
Qed.

Lemma outcomes_resolver w names region :
  outcomes (fst (get_instance_ids_by_name w names region)) = [].
Proof.
  rewrite get_instance_ids_by_name_cases.
  destruct (client_error w "ec2" region) as [e0|]; [reflexivity|].
  destruct (describe_by_tag w region "tag:Name" names) as [e1|r1];
    [destruct e1; reflexivity|].
  destruct (describe_by_tag w region "tag:Hostname" names) as [e2|r2];
    [destruct e2; reflexivity|].
  reflexivity.
Qed.

Lemma resolver_exit_is_1 w names region n :
  snd (get_instance_ids_by_name w names region) = Exit n -> n = 1%Z.
Proof.
  rewrite get_instance_ids_by_name_cases.
  destruct (client_error w "ec2" region) as [e0|]; [discriminate|].
  destruct (describe_by_tag w region "tag:Name" names) as [e1|r1];
    [destruct e1; simpl; congruence|].
  destruct (describe_by_tag w region "tag:Hostname" names) as [e2|r2];
    [destruct e2; simpl; congruence|].
  discriminate.
Qed.

(** X4: the process ends with status 0 only when the configuration was
    present, resolution returned at least one instance and the loop ran to
    its end; the printed outcome lines then name every resolved instance
    once, in the order of the loop.  In every other case the status is 1. *)
Theorem zero_exit_reports_every_instance env w :
  (exit_code (main env w) = 0%Z \/ exit_code (main env w) = 1%Z)
  /\ (exit_code (main env w) = 0%Z ->
      exists servers tr ids,
        env_server_names env = Some servers
        /\ config_present env = true
        /\ get_instance_ids_by_name w (server_list servers)
             (default "us-east-1" (env_region env)) = (tr, Return ids)
        /\ ids <> []
        /\ map fst (outcomes (fst (main env w))) = ids).
Proof.
  destruct (config_present env) eqn:Hp.
  2:{ rewrite (main_absent env w Hp). split; [by right | intros E; discriminate E]. }
  destruct env as [[s|] [v|] [a|] r]; try discriminate;
    try (unfold config_present in Hp; simpl in Hp;
         rewrite ?andb_false_r in Hp; discriminate).
  pose proof (main_present s v a r w Hp) as Hm. cbv zeta in Hm. rewrite Hm.
  pose proof (outcomes_resolver w (server_list s) (default "us-east-1" r)) as Hor.
  pose proof (resolver_exit_is_1 w (server_list s) (default "us-east-1" r)) as Hex.
  destruct (get_instance_ids_by_name w (server_list s) (default "us-east-1" r))
    as [tr [[|id ids]|n|e]] eqn:Hr; unfold exit_code; cbn [fst snd] in *.
  - split; [by right | intros E; discriminate E].
  - destruct (dispatch_all_returned w (default "us-east-1" r) v a (id :: ids))
      as (Hne & Hret).
    set (run := dispatch_all w (default "us-east-1" r) v a (id :: ids)) in *.
    destruct (client_error w "ssm" (default "us-east-1" r)) as [e0|];
      cbn [fst snd];
      [split; [by right | intros E; discriminate E]|].
    destruct (snd run) as [[]|n|e] eqn:Hs.
    + split; [by left|]. intros _. exists s, tr, (id :: ids).
      repeat split; try done.
      unfold outcomes in *. rewrite omap_app, map_app, Hor. simpl.
      by apply Hret.
    + by destruct (Hne n).
    + split; [by right | intros E; discriminate E].
  - rewrite (Hex n eq_refl). split; [by right | intros E; discriminate E].
  - split; [by right | intros E; discriminate E].
Qed.

Lemma zero_exit_reports_every_instance_witness :
  map fst (outcomes (fst (main (Environ (Some "web-1") (Some "nginx") (Some "stop") None)
                            demo_fleet_world)))
  = ["i-0b2"].
Proof.
  destruct (proj2 (zero_exit_reports_every_instance
                     (Environ (Some "web-1") (Some "nginx") (Some "stop") None)
                     demo_fleet_world) eq_refl)
    as (servers & tr & ids & Hs & _ & Hr & _ & Ho).
  injection Hs as <-. vm_compute in Hr. injection Hr as <- <-. exact Ho.
Defined.

(** ** The name list *)

Lemma lstrip_blank s : all_chars Py.isspace s = true -> Py.lstrip s = EmptyString.
Proof.
  induction s as [|c s IH]; [done|]. simpl.
  intros [Hc Hs]%andb_true_iff. rewrite Hc. by apply IH.
Qed.

Lemma strip_blank s : all_chars Py.isspace s = true -> Py.strip s = EmptyString.
Proof. intros Hs. unfold Py.strip. by rewrite lstrip_blank. Qed.

Lemma split_blank s :
  all_chars blank_or_comma s = true ->
  Forall (fun seg => all_chars Py.isspace seg = true) (Py.split comma s).
Proof.
  induction s as [|c s IH]; [by repeat constructor|]. simpl.
  intros [Hc Hs]%andb_true_iff. specialize (IH Hs).
  destruct (Ascii.eqb c comma) eqn:Ec.
  - by constructor.
  - unfold blank_or_comma in Hc. rewrite Ec, orb_false_r in Hc.
    destruct (Py.split comma s) as [|seg segs].
    + repeat constructor. simpl. by rewrite Hc.
    + inversion IH as [|? ? Hseg Hsegs]; subst.
      constructor; [|done]. simpl. by rewrite Hc, Hseg.
Qed.

Lemma server_list_blank s :
  all_chars blank_or_comma s = true -> server_list s = [].
Proof.
  intros Hs. unfold server_list.
  pose proof (split_blank s Hs) as Hall.
  induction Hall as [|seg segs Hseg _ IH]; [reflexivity|].
  rewrite filter_cons.
  destruct (decide (Is_true (Py.truthy (Py.strip seg)))) as [Ht|Ht]; [|exact IH].
  by rewrite (strip_blank seg Hseg) in Ht.
Qed.

(** [main] with a present configuration begins by building the client of
    the resolver; when that fails the run ends there, without any event, and
    otherwise its first event is the query by display name. *)
Lemma main_begins_with_resolution servers services action region_opt w :
  let env := Environ (Some servers) (Some services) (Some action) region_opt in
  let region := default "us-east-1" region_opt in
  config_present env = true ->
  match client_error w "ec2" region with
  | Some e => main env w = ([], Raise e)
  | None =>
      exists tr o,
        main env w
        = (Describe_by_tag region "tag:Name" (server_list servers) :: tr, o)
  end.
Proof.
  intros env region Hp. unfold env. rewrite main_present by exact Hp.
  fold region. rewrite get_instance_ids_by_name_cases. cbv zeta.
  destruct (client_error w "ec2" region) as [e0|]; [reflexivity|].
  destruct (describe_by_tag w _ "tag:Name" _) as [e1|r1].
  { destruct e1; simpl; eauto. }
  destruct (describe_by_tag w _ "tag:Hostname" _) as [e2|r2].
  { destruct e2; simpl; eauto. }
  destruct (set_to_list w (list_to_set (running_ids (r1 ++ r2)))); simpl; eauto.
  destruct (client_error w "ssm" region); simpl; eauto.
Qed.

(** X5: a target-names value made only of commas and white space is not
    empty, so the presence check lets it through, but it holds no name: the
    name list is empty and the run goes on to resolution.  When the client
    of the resolver cannot be built (as for an empty region) the run ends
    in that exception without any event; otherwise its first event is the
    query of the inventory with an empty list of values. *)
Theorem blank_names_pass_validation servers services action region_opt w :
  let env := Environ (Some servers) (Some services) (Some action) region_opt in
  let region := default "us-east-1" region_opt in
  config_present env = true ->
  all_chars blank_or_comma servers = true ->
  server_list servers = []
  /\ match client_error w "ec2" region with
     | Some e => main env w = ([], Raise e)
     | None =>
         exists tr o,
           main env w = (Describe_by_tag region "tag:Name" [] :: tr, o)
     end.
Proof.
  intros env region Hp Hb.
  pose proof (server_list_blank servers Hb) as Hl. split; [exact Hl|].
  pose proof (main_begins_with_resolution servers services action region_opt w Hp)
    as Hm.
  cbv zeta in Hm. fold env region in Hm. rewrite Hl in Hm. exact Hm.
Qed.

Lemma blank_names_pass_validation_witness :
  server_list " , ,, " = []
  /\ main (Environ (Some " , ,, ") (Some "nginx") (Some "stop") None)
       demo_fleet_world
     = ([Describe_by_tag "us-east-1" "tag:Name" [];
         Describe_by_tag "us-east-1" "tag:Hostname" [];
         Printed (Msg_no_running [])], Exit 1)
  /\ main (Environ (Some " , ,, ") (Some "nginx") (Some "stop") (Some ""))
       demo_fleet_world
     = ([], Raise (ValueError "Invalid endpoint: https://ec2..amazonaws.com")).
Proof.
  split; [|split; [vm_compute; reflexivity|]].
  - apply (blank_names_pass_validation " , ,, " "nginx" "stop" None demo_fleet_world);
      reflexivity.
  - apply (proj2 (blank_names_pass_validation " , ,, " "nginx" "stop" (Some "")
                    demo_fleet_world eq_refl eq_refl)).
Defined.

(** ** Cleaning a name list twice *)

Lemma chars_app (a b : string) : chars (a +:+ b) = chars a ++ chars b.
Proof.
  induction a as [|c a IH]; [reflexivity|].
  rewrite append_cons. simpl. by rewrite IH.
Qed.

Lemma lstrip_fixed s :
  (forall c, head (chars s) = Some c -> Py.isspace c = false) -> Py.lstrip s = s.
Proof.
  destruct s as [|c s]; [done|]. simpl. intros Hh. by rewrite (Hh c eq_refl).
Qed.

Lemma rstrip_fixed s :
  (forall c, last (chars s) = Some c -> Py.isspace c = false) -> Py.rstrip s = s.
Proof.
  induction s as [|c s IH]; [done|]. simpl. intros Hl.
  destruct s as [|c' s'].
  - simpl in *. by rewrite (Hl c eq_refl).
  - rewrite IH; [done|]. intros x Hx. apply Hl. exact Hx.
Qed.

Lemma strip_strip s : Py.strip (Py.strip s) = Py.strip s.
Proof.
  assert (Hr : Py.rstrip (Py.strip s) = Py.strip s).
  { apply rstrip_fixed. intros c. apply strip_ends. }
  unfold Py.strip at 1. rewrite lstrip_fixed; [exact Hr|].
  intros c. apply strip_ends.
Qed.

Lemma strip_keeps_comma_free s : comma ∉ chars s -> comma ∉ chars (Py.strip s).
Proof.
  destruct (strip_decompose s) as (l & r & Hs & _ & _).
  intros Hn Hin. apply Hn. rewrite Hs, !chars_app.
  apply elem_of_app. right. apply elem_of_app. by left.
Qed.

Lemma split_comma_free a : comma ∉ chars a -> Py.split comma a = [a].
Proof.
  induction a as [|c a IH]; [done|]. simpl. intros Hn.
  destruct (Ascii.eqb_spec c comma) as [->|Hc].
  - destruct Hn. apply elem_of_cons. by left.
  - rewrite IH; [done|]. intros Hin. apply Hn. apply elem_of_cons. by right.
Qed.

Lemma split_app_comma a rest :
  comma ∉ chars a ->
  Py.split comma (a +:+ String comma rest) = a :: Py.split comma rest.
Proof.
  induction a as [|c a IH]; intros Hn.
  - change (EmptyString +:+ String comma rest) with (String comma rest).
    cbn [Py.split]. by rewrite Ascii.eqb_refl.
  - rewrite append_cons. simpl in *.
    destruct (Ascii.eqb_spec c comma) as [->|Hc].
    + destruct Hn. apply elem_of_cons. by left.
    + rewrite IH; [done|]. intros Hin. apply Hn. apply elem_of_cons. by right.
Qed.

(** [split] undoes [join] on a list that is not empty and whose elements
    hold no comma. *)
Lemma split_join_comma_free l :
  l <> [] -> Forall (fun x => comma ∉ chars x) l ->
  Py.split comma (join comma l) = l.
Proof.
  induction l as [|x l IH]; [done|]. intros _ Hall.
  inversion Hall as [|? ? Hx Hl]; subst.
  destruct l as [|y l'].
  - simpl. by apply split_comma_free.
  - change (join comma (x :: y :: l')) with (x +:+ String comma (join comma (y :: l'))).
    rewrite split_app_comma by exact Hx. by rewrite IH.
Qed.

Lemma server_list_clean servers : Forall clean_name (server_list servers).
Proof.
  unfold server_list. pose proof (split_no_sep comma servers) as Hall.
  induction Hall as [|seg segs Hseg _ IH]; [constructor|].
  rewrite filter_cons.
  destruct (decide (Is_true (Py.truthy (Py.strip seg)))) as [Ht|Ht]; [|exact IH].
  simpl. constructor; [|exact IH].
  split; [|split].
  - intros E. by rewrite E in Ht.
  - apply strip_strip.
  - by apply strip_keeps_comma_free.
Qed.

Lemma server_list_of_clean l :
  Forall clean_name l -> server_list (join comma l) = l.
Proof.
  intros Hall. destruct l as [|x l']; [reflexivity|].
  unfold server_list. rewrite split_join_comma_free; [|done|].
  - induction Hall as [|n ns (Hne & Hs & _) _ IH]; [reflexivity|].
    rewrite filter_cons.
    destruct (decide (Is_true (Py.truthy (Py.strip n)))) as [Ht|Ht].
    + simpl. by rewrite Hs, IH.
    + destruct Ht. rewrite Hs. by destruct n.
  - eapply Forall_impl; [exact Hall|]. by intros n (_ & _ & Hn).
Qed.

(** X6: every name of the list passed to resolution is clean (not empty,
    with no white space to strip at either end and no comma), and cleaning
    is stable: joining the list with commas and reading it again gives the
    same list. *)
Theorem server_list_round_trip (servers : string) :
  Forall clean_name (server_list servers)
  /\ server_list (join comma (server_list servers)) = server_list servers.
Proof.
  split; [apply server_list_clean|].
  apply server_list_of_clean, server_list_clean.
Qed.

(** * Further properties of the scripts *)

(** ** The Linux script for any action *)

Section Linux_script_actions.
Context {H : Type}.
Variable grep_units : H -> string -> bool.
Variable systemctl : H -> string -> string -> H * bool.

Abbreviation lexec := (Sh.exec grep_units systemctl).
Abbreviation lstep := (linux_step grep_units systemctl).

Lemma linux_plain_literals :
Sh.plain "start" = true /\ Sh.plain "stop" = true /\ Sh.plain "restart" = true
/\ Sh.plain "Started " = true /\ Sh.plain "Failed to start " = true
/\ Sh.plain "Stopped " = true /\ Sh.plain "Failed to stop " = true
/\ Sh.plain "Restarted " = true /\ Sh.plain "Failed to restart " = true
/\ Sh.plain "Error: " = true /\ Sh.plain " not found on this system" = true.
Proof. repeat split; reflexivity. Qed.

Lemma getvar_lookup vs (h : H) lines x v :
vs !! x = Some v -> Sh.getvar (Sh.State vs h lines) x = v.
Proof. intros Hl. unfold Sh.getvar. simpl. by rewrite Hl. Qed.

(** [systemctl verb "$svc" && echo ... || echo ...] in a state where [svc]
  is set. *)
Lemma linux_act_exec vs (h : H) lines svc verb done_msg failed_msg :
vs !! "svc" = Some svc ->
Sh.plain done_msg = true -> Sh.plain failed_msg = true ->
lexec (linux_act verb done_msg failed_msg) (Sh.State vs h lines)
= Some (Sh.State vs
          (fst (linux_act_step systemctl verb done_msg failed_msg (h, lines) svc))
          (snd (linux_act_step systemctl verb done_msg failed_msg (h, lines) svc))).
Proof.
intros Hsvc Hd Hf. unfold linux_act, linux_act_step.
cbn [Sh.exec Sh.run_simple Sh.expand Sh.expand_part].
rewrite (getvar_lookup vs h lines _ _ Hsvc), append_empty_r.
cbn [Sh.vars Sh.host Sh.out].
destruct (systemctl h verb svc) as [h' []];
  cbn [Sh.run_simple Sh.expand Sh.expand_part Sh.vars Sh.host Sh.out fst snd
         fmap option_fmap option_map];
  rewrite ?Hd, ?Hf, (getvar_lookup vs h' lines _ _ Hsvc), append_empty_r;
  reflexivity.
Qed.

(** One round of the loop. *)
Lemma linux_body_exec (st : Sh.state) action svc :
Sh.plain action = true ->
exists vs,
  lexec (linux_body action) (Sh.setvar "svc" svc st)
  = Some (Sh.State vs (fst (lstep action (Sh.host st, Sh.out st) svc))
                      (snd (lstep action (Sh.host st, Sh.out st) svc))).
Proof.
intros Ha.
destruct linux_plain_literals
  as (P1 & P2 & P3 & P4 & P5 & P6 & P7 & P8 & P9 & P10 & P11).
destruct st as [vs h lines]. unfold Sh.setvar. cbn [Sh.vars Sh.host Sh.out].
set (vs1 := <["svc" := svc]> vs).
assert (Hsvc : vs1 !! "svc" = Some svc) by apply lookup_insert_eq.
unfold linux_body, linux_step. cbn [fst snd].
cbn [Sh.exec Sh.run_simple Sh.expand Sh.expand_part].
rewrite (getvar_lookup vs1 h lines _ _ Hsvc), append_empty_r.
cbn [Sh.host].
destruct (grep_units h svc).
- cbn [Sh.exec Sh.exec_tail Sh.run_simple Sh.expand Sh.expand_part].
  rewrite Ha, P1, P2, P3, !append_empty_r.
  repeat change (lexec ?c ?st) with (Sh.exec grep_units systemctl c st).
  destruct (bool_decide (action = "start")).
  { rewrite (linux_act_exec vs1 h lines svc) by done. eauto. }
  destruct (bool_decide (action = "stop")).
  { rewrite (linux_act_exec vs1 h lines svc) by done. eauto. }
  destruct (bool_decide (action = "restart")).
  { rewrite (linux_act_exec vs1 h lines svc) by done. eauto. }
  eauto.
- cbn [Sh.exec_tail Sh.exec Sh.run_simple Sh.expand Sh.expand_part
         fmap option_fmap option_map].
  rewrite P10, P11, append_empty_r.
  cbn [fst snd fmap option_fmap option_map Sh.vars Sh.host Sh.out]. eauto.
Qed.

Lemma linux_for_each_exec action vs (st : Sh.state) :
Sh.plain action = true ->
exists vars',
  Sh.for_each (lexec (linux_body action)) "svc" vs st
  = Some (Sh.State vars' (fst (foldl (lstep action) (Sh.host st, Sh.out st) vs))
                         (snd (foldl (lstep action) (Sh.host st, Sh.out st) vs))).
Proof.
intros Ha. revert st. induction vs as [|v vs IH]; intros st.
- exists (Sh.vars st). by destruct st.
- cbn [Sh.for_each foldl].
  destruct (linux_body_exec st action v Ha) as (vars1 & ->).
  destruct (IH (Sh.State vars1
                  (fst (lstep action (Sh.host st, Sh.out st) v))
                  (snd (lstep action (Sh.host st, Sh.out st) v)))) as (vars' & ->).
  exists vars'. cbn [Sh.host Sh.out].
  by destruct (lstep action (Sh.host st, Sh.out st) v).
Qed.

(** The script for any action: one round for each field of the service
  list, in order. *)
Lemma linux_run_by_rounds services action (h : H) :
Sh.plain services = true -> Sh.plain action = true ->
forallb Sh.no_glob (Sh.fields services) = true ->
Sh.run grep_units systemctl (linux_program services action) h
= Some (foldl (lstep action) (h, []) (Sh.fields services)).
Proof.
intros Hp Ha Hg. unfold Sh.run, linux_program.
cbn [Sh.exec Sh.expand Sh.expand_part]. rewrite Hp, append_empty_r.
rewrite getvar_setvar, Hg.
destruct (linux_for_each_exec action (Sh.fields services)
            (Sh.setvar "services" services (Sh.State ∅ h [])) Ha) as (vars' & ->).
cbn [Sh.host Sh.out Sh.setvar].
by destruct (foldl (lstep action) (h, []) (Sh.fields services)).
Qed.
End Linux_script_actions.

(** ** The Windows script for any action *)

Section Windows_script_actions.
Context {H : Type}.
Variable get_service : H -> string -> string + Ps.service.
Variable control : H -> Ps.cmdlet -> string -> H * option string.

Abbreviation wexec := (Ps.exec get_service control).
Abbreviation wstep := (windows_step get_service control).

Lemma windows_plain_literals :
Ps.plain "start" = true /\ Ps.plain "stop" = true /\ Ps.plain "restart" = true
/\ Ps.plain "Started " = true /\ Ps.plain "Stopped " = true
/\ Ps.plain "Restarted " = true /\ Ps.plain " already running" = true
/\ Ps.plain " already stopped" = true /\ Ps.plain "Running" = true
/\ Ps.plain "Stopped" = true /\ Ps.plain "," = true.
Proof. repeat split; reflexivity. Qed.

Lemma exec_try body handler st :
wexec (Ps.Try body handler) st
= match wexec body st with
  | Some (Ps.Throw st' msg) => wexec handler (Ps.setvar "_" (Ps.VStr msg) st')
  | r => r
  end.
Proof. reflexivity. Qed.

Lemma exec_seq s1 s2 st :
wexec (Ps.Seq s1 s2) st
= match wexec s1 st with
  | Some (Ps.Done st') => wexec s2 st'
  | r => r
  end.
Proof. reflexivity. Qed.

Lemma exec_if c thn rest st :
wexec (Ps.If c thn rest) st
= match Ps.test st c with
  | Some true => wexec thn st
  | Some false => Ps.exec_tail get_service control rest st
  | None => None
  end.
Proof. reflexivity. Qed.

Lemma exec_tail_elseif c thn rest st :
Ps.exec_tail get_service control (Ps.Elseif c thn rest) st
= match Ps.test st c with
  | Some true => wexec thn st
  | Some false => Ps.exec_tail get_service control rest st
  | None => None
  end.
Proof. reflexivity. Qed.

Lemma test_action (st : Ps.state (H:=H)) action lit :
Ps.plain action = true -> Ps.plain lit = true ->
Ps.test st (Ps.Eq (Ps.Str action) (Ps.Str lit)) = Some (Ps.eq_nocase action lit).
Proof. intros Ha Hl. simpl. by rewrite Ha, Hl. Qed.

Lemma test_status vs (h : H) lines sv name target :
vs !! "s" = Some (Ps.VSvc sv) ->
Ps.plain name = true -> Ps.status_of_string name = Some target ->
Ps.test (Ps.State vs h lines) (Ps.Ne (Ps.Member "s" "Status") (Ps.Str name))
= Some (negb (bool_decide (Ps.Status sv = target))).
Proof. intros Hs Hp Ht. simpl. by rewrite Hs, Hp, Ht. Qed.

(** The handler of the [try] prints the message of the error. *)
Lemma handler_exec vs (h : H) lines svc msg :
vs !! "svc" = Some (Ps.VStr svc) ->
wexec (Ps.Write_Host
         (Ps.Add (Ps.Add (Ps.Add (Ps.Str "Error with ") (Ps.Var "svc")) (Ps.Str ": "))
                 (Ps.Var "_")))
      (Ps.setvar "_" (Ps.VStr msg) (Ps.State vs h lines))
= Some (Ps.Done (Ps.State (<["_" := Ps.VStr msg]> vs) h
                   (lines ++ [windows_error_line svc msg]))).
Proof.
intros Hsvc. cbn [Ps.exec].
by rewrite (eval_error_message vs h lines svc msg Hsvc).
Qed.

(** A control cmdlet followed by [Write-Host]. *)
Lemma windows_act_exec vs (h : H) lines svc sv c done_msg :
vs !! "svc" = Some (Ps.VStr svc) -> vs !! "s" = Some (Ps.VSvc sv) ->
Ps.no_wildcard svc = true -> Ps.plain done_msg = true ->
c <> Ps.Get_Service ->
wexec (windows_act c done_msg) (Ps.State vs h lines)
= match control h c svc with
  | (h', None) =>
      Some (Ps.Done (Ps.State vs h' (lines ++ [done_msg +:+ Ps.DisplayName sv])))
  | (h', Some msg) => Some (Ps.Throw (Ps.State vs h' lines) msg)
  end.
Proof.
intros Hsvc Hs Hw Hd Hc. unfold windows_act. rewrite exec_seq.
cbn [Ps.exec]. rewrite (name_arg_lookup vs h lines _ _ Hsvc Hw).
assert (Hcall : fst (Ps.call get_service control c svc (Ps.State vs h lines))
                = match control h c svc with
                  | (h', None) => Ps.Done (Ps.State vs h' lines)
                  | (h', Some msg) => Ps.Throw (Ps.State vs h' lines) msg
                  end).
{ destruct c; try done; simpl; by destruct (control h _ svc) as [h' [msg|]]. }
rewrite Hcall. destruct (control h c svc) as [h' [msg|]]; [reflexivity|].
by rewrite (eval_then_name vs h' lines _ _ _ Hs Hd).
Qed.

(** The test on the status and what follows it. *)
Lemma windows_guarded_exec vs (h : H) lines svc sv c name target done_msg already_msg :
vs !! "svc" = Some (Ps.VStr svc) -> vs !! "s" = Some (Ps.VSvc sv) ->
Ps.no_wildcard svc = true ->
Ps.plain name = true -> Ps.status_of_string name = Some target ->
Ps.plain done_msg = true -> Ps.plain already_msg = true ->
c <> Ps.Get_Service ->
wexec (windows_guarded c name done_msg already_msg) (Ps.State vs h lines)
= if bool_decide (Ps.Status sv = target)
  then Some (Ps.Done (Ps.State vs h (lines ++ [Ps.DisplayName sv +:+ already_msg])))
  else wexec (windows_act c done_msg) (Ps.State vs h lines).
Proof.
intros Hsvc Hs Hw Hn Ht Hd Hal Hc. unfold windows_guarded.
rewrite exec_if, (test_status vs h lines sv name target Hs Hn Ht).
destruct (bool_decide (Ps.Status sv = target)); cbn [negb]; [|reflexivity].
cbn [Ps.exec_tail Ps.exec].
by rewrite (eval_name_then vs h lines _ _ _ Hs Hal).
Qed.

Lemma exec_get_service vs (h : H) lines svc :
vs !! "svc" = Some (Ps.VStr svc) -> Ps.no_wildcard svc = true ->
wexec (Ps.Assign_call "s" Ps.Get_Service "svc") (Ps.State vs h lines)
= match get_service h svc with
  | inl msg => Some (Ps.Throw (Ps.State vs h lines) msg)
  | inr sv => Some (Ps.Done (Ps.State (<["s" := Ps.VSvc sv]> vs) h lines))
  end.
Proof.
intros Hsvc Hw. cbn [Ps.exec]. rewrite (name_arg_lookup vs h lines _ _ Hsvc Hw).
cbn [Ps.call Ps.host]. by destruct (get_service h svc).
Qed.

(** One round of the loop. *)
Lemma windows_body_exec (st : Ps.state) action svc :
Ps.plain action = true -> Ps.no_wildcard svc = true ->
exists vs,
  wexec (windows_body action) (Ps.setvar "svc" (Ps.VStr svc) st)
  = Some (Ps.Done (Ps.State vs (fst (wstep action (Ps.host st, Ps.out st) svc))
                               (snd (wstep action (Ps.host st, Ps.out st) svc)))).
Proof.
intros Ha Hw.
destruct windows_plain_literals
  as (P1 & P2 & P3 & P4 & P5 & P6 & P7 & P8 & P9 & P10 & P11).
destruct st as [vs h lines]. unfold Ps.setvar. cbn [Ps.vars Ps.host Ps.out].
set (vs1 := <["svc" := Ps.VStr svc]> vs).
assert (Hsvc : vs1 !! "svc" = Some (Ps.VStr svc)) by apply lookup_insert_eq.
unfold windows_body, windows_step. cbn [fst snd].
rewrite exec_try, exec_seq, (exec_get_service vs1 h lines svc Hsvc Hw).
destruct (get_service h svc) as [msg|sv].
{ rewrite (handler_exec vs1 h lines svc msg Hsvc). eauto. }
set (vs2 := <["s" := Ps.VSvc sv]> vs1).
assert (Hs : vs2 !! "s" = Some (Ps.VSvc sv)) by apply lookup_insert_eq.
assert (Hsvc2 : vs2 !! "svc" = Some (Ps.VStr svc)).
{ unfold vs2. by rewrite lookup_insert_ne. }
assert (Hact : forall c done_msg,
           Ps.plain done_msg = true -> c <> Ps.Get_Service ->
           exists vs',
             match wexec (windows_act c done_msg) (Ps.State vs2 h lines) with
             | Some (Ps.Throw st' msg) =>
                 wexec (Ps.Write_Host
                          (Ps.Add (Ps.Add (Ps.Add (Ps.Str "Error with ") (Ps.Var "svc"))
                                          (Ps.Str ": ")) (Ps.Var "_")))
                       (Ps.setvar "_" (Ps.VStr msg) st')
             | r => r
             end
             = Some (Ps.Done (Ps.State vs'
                  (fst (windows_act_step control c done_msg (h, lines) svc sv))
                  (snd (windows_act_step control c done_msg (h, lines) svc sv))))).
{ intros c done_msg Hd Hc.
  rewrite (windows_act_exec vs2 h lines svc sv c done_msg) by done.
  unfold windows_act_step.
  destruct (control h c svc) as [h' [msg|]]; [|eauto].
  rewrite (handler_exec vs2 h' lines svc msg Hsvc2). eauto. }
assert (Hguard : forall c name target done_msg already_msg,
           Ps.plain name = true -> Ps.status_of_string name = Some target ->
           Ps.plain done_msg = true -> Ps.plain already_msg = true ->
           c <> Ps.Get_Service ->
           exists vs',
             match wexec (windows_guarded c name done_msg already_msg)
                     (Ps.State vs2 h lines) with
             | Some (Ps.Throw st' msg) =>
                 wexec (Ps.Write_Host
                          (Ps.Add (Ps.Add (Ps.Add (Ps.Str "Error with ") (Ps.Var "svc"))
                                          (Ps.Str ": ")) (Ps.Var "_")))
                       (Ps.setvar "_" (Ps.VStr msg) st')
             | r => r
             end
             = Some (Ps.Done (Ps.State vs'
                  (fst (windows_guarded_step control c target done_msg already_msg
                          (h, lines) svc sv))
                  (snd (windows_guarded_step control c target done_msg already_msg
                          (h, lines) svc sv))))).
{ intros c name target done_msg already_msg Hn Ht Hd Hal Hc.
  rewrite (windows_guarded_exec vs2 h lines svc sv c name target) by done.
  unfold windows_guarded_step.
  destruct (bool_decide (Ps.Status sv = target)); [eauto|].
  by apply Hact. }
rewrite exec_if, (test_action _ action "start" Ha P1).
destruct (Ps.eq_nocase action "start").
{ by apply (Hguard Ps.Start_Service "Running" Ps.Running). }
rewrite exec_tail_elseif, (test_action _ action "stop" Ha P2).
destruct (Ps.eq_nocase action "stop").
{ by apply (Hguard Ps.Stop_Service "Stopped" Ps.Stopped). }
rewrite exec_tail_elseif, (test_action _ action "restart" Ha P3).
destruct (Ps.eq_nocase action "restart").
{ by apply (Hact Ps.Restart_Service_Force). }
cbn [Ps.exec_tail]. eauto.
Qed.

Lemma windows_for_each_exec action vs (st : Ps.state) :
Ps.plain action = true -> forallb Ps.no_wildcard vs = true ->
exists vars',
  Ps.for_each (wexec (windows_body action)) "svc" vs st
  = Some (Ps.Done (Ps.State vars'
            (fst (foldl (wstep action) (Ps.host st, Ps.out st) vs))
            (snd (foldl (wstep action) (Ps.host st, Ps.out st) vs)))).
Proof.
intros Ha. revert st. induction vs as [|v vs IH]; intros st Hw.
- exists (Ps.vars st). by destruct st.
- cbn [forallb] in Hw. apply andb_true_iff in Hw as [Hv Hvs].
  cbn [Ps.for_each foldl].
  destruct (windows_body_exec st action v Ha Hv) as (vars1 & ->).
  destruct (IH (Ps.State vars1
                  (fst (wstep action (Ps.host st, Ps.out st) v))
                  (snd (wstep action (Ps.host st, Ps.out st) v))) Hvs) as (vars' & ->).
  exists vars'. cbn [Ps.host Ps.out].
  by destruct (wstep action (Ps.host st, Ps.out st) v).
Qed.

(** The script for any action: one round for each element of the service
  list split at the commas, in order; no error escapes it. *)
Lemma windows_run_by_rounds services action (h : H) :
Ps.plain services = true -> Ps.plain action = true ->
Ps.no_wildcard services = true ->
Ps.run get_service control (windows_program services action) h
= Some (foldl (wstep action) (h, []) (Py.split comma services)).
Proof.
intros Hp Ha Hw.
destruct windows_plain_literals as (_ & _ & _ & _ & _ & _ & _ & _ & _ & _ & P11).
unfold Ps.run, windows_program.
cbn [Ps.exec Ps.eval]. rewrite Hp, P11.
change (bool_decide ("," = ",")) with true. cbv iota.
change (Ps.setvar "services" (Ps.VArr (Py.split comma services)) (Ps.State ∅ h []))
  with (Ps.State (<["services" := Ps.VArr (Py.split comma services)]> ∅) h []).
cbn [Ps.vars]. rewrite lookup_insert_eq.
destruct (windows_for_each_exec action (Py.split comma services)
            (Ps.State (<["services" := Ps.VArr (Py.split comma services)]> ∅) h [])
            Ha (all_chars_split _ comma services Hw)) as (vars' & ->).
cbn [Ps.host Ps.out].
by destruct (foldl (wstep action) (h, []) (Py.split comma services)).
Qed.
End Windows_script_actions.

(** ** What the Linux script reports *)

Lemma known_action_plain action : known_action action = true -> Sh.plain action = true.
Proof.
  unfold known_action. intros Hk.
  apply orb_true_iff in Hk as [Hk|Hk]; [apply orb_true_iff in Hk as [Hk|Hk]|];
    apply bool_decide_eq_true in Hk; by subst.
Qed.

Lemma linux_step_known {H} (grep_units : H -> string -> bool) systemctl action h lines svc :
  known_action action = true ->
  exists h' line,
    linux_step grep_units systemctl action (h, lines) svc = (h', lines ++ [line])
    /\ line ∈ linux_lines_for svc.
Proof.
  unfold known_action, linux_step, linux_act_step, linux_lines_for. cbn [fst snd].
  intros Hk. destruct (grep_units h svc).
  - destruct (bool_decide (action = "start")).
    { destruct (systemctl h "start" svc) as [h' []]; eexists _, _;
        (split; [reflexivity|]); set_solver. }
    destruct (bool_decide (action = "stop")).
    { destruct (systemctl h "stop" svc) as [h' []]; eexists _, _;
        (split; [reflexivity|]); set_solver. }
    destruct (bool_decide (action = "restart")); [|discriminate].
    destruct (systemctl h "restart" svc) as [h' []]; eexists _, _;
      (split; [reflexivity|]); set_solver.
  - eexists _, _. split; [reflexivity|]. set_solver.
Qed.

Lemma linux_rounds_known {H} (grep_units : H -> string -> bool) systemctl action vs h lines :
  known_action action = true ->
  exists h' new,
    foldl (linux_step grep_units systemctl action) (h, lines) vs = (h', lines ++ new)
    /\ Forall2 (fun svc line => line ∈ linux_lines_for svc) vs new.
Proof.
  intros Hk. revert h lines. induction vs as [|v vs IH]; intros h lines.
  - exists h, []. split; [by rewrite app_nil_r | constructor].
  - cbn [foldl].
    destruct (linux_step_known grep_units systemctl action h lines v Hk)
      as (h1 & line & -> & Hline).
    destruct (IH h1 (lines ++ [line])) as (h' & new & -> & Hnew).
    exists h', (line :: new). split; [by rewrite <- app_assoc | by constructor].
Qed.





Lemma linux_rounds_unknown {H} (grep_units : H -> string -> bool) systemctl action vs h lines :
  known_action action = false ->
  foldl (linux_step grep_units systemctl action) (h, lines) vs
  = (h, lines ++ map linux_not_found_line
                   (List.filter (fun svc => negb (grep_units h svc)) vs)).
Proof.
  unfold known_action. intros Hk.
  apply orb_false_iff in Hk as [Hk H3]. apply orb_false_iff in Hk as [H1 H2].
  revert lines. induction vs as [|v vs IH]; intros lines.
  - simpl. by rewrite app_nil_r.
  - cbn [foldl List.filter]. unfold linux_step at 2. cbn [fst snd].
    rewrite H1, H2, H3.
    destruct (grep_units h v); cbn [negb].
    + apply IH.
    + rewrite IH. simpl. by rewrite <- app_assoc.
Qed.



(** ** What the Windows script reports *)

(** X10: for a service name that [Get-Service] finds, the Windows script
    with the action stop mirrors start: a service that is Stopped is
    reported as already stopped and nothing is called, any other is stopped
    and reported.  With the action restart there is no test of the status:
    Restart-Service is always called.  An error of the cmdlet is caught and
    reported as an error line. *)
Theorem windows_script_stop_and_restart (svc : string) :
  service_name svc = true ->
  forall (H : Type) get_service control (h : H) sv,
    get_service h svc = inr sv ->
    (Ps.Status sv = Ps.Stopped ->
     Ps.run get_service control (windows_program svc "stop") h
     = Some (h, [Ps.DisplayName sv +:+ " already stopped"]))
    /\ (Ps.Status sv <> Ps.Stopped ->
        Ps.run get_service control (windows_program svc "stop") h
        = Some (fst (control h Ps.Stop_Service svc),
                [match snd (control h Ps.Stop_Service svc) with
                 | None => "Stopped " +:+ Ps.DisplayName sv
                 | Some msg => windows_error_line svc msg
                 end]))
    /\ Ps.run get_service control (windows_program svc "restart") h
       = Some (fst (control h Ps.Restart_Service_Force svc),
               [match snd (control h Ps.Restart_Service_Force svc) with
                | None => "Restarted " +:+ Ps.DisplayName sv
                | Some msg => windows_error_line svc msg
                end]).
Proof.
  intros Hn H get_service control h sv Hget.
  destruct (service_name_fragments svc Hn) as (_ & _ & _ & Hpp & Hpw & Hs).
  rewrite !windows_run_by_rounds by done. rewrite Hs.
  unfold windows_step, windows_guarded_step, windows_act_step. cbn [foldl fst snd].
  rewrite Hget.
  change (Ps.eq_nocase "stop" "start") with false.
  change (Ps.eq_nocase "stop" "stop") with true.
  change (Ps.eq_nocase "restart" "start") with false.
  change (Ps.eq_nocase "restart" "stop") with false.
  change (Ps.eq_nocase "restart" "restart") with true.
  cbv iota. split; [|split].
  - intros Hst. by rewrite bool_decide_eq_true_2.
  - intros Hst. rewrite bool_decide_eq_false_2 by done.
    by destruct (control h Ps.Stop_Service svc) as [h' [msg|]].
  - by destruct (control h Ps.Restart_Service_Force svc) as [h' [msg|]].
Qed.

Lemma windows_script_stop_and_restart_witness :
  Ps.run windows_get_service windows_control (windows_program "redis" "stop")
    windows_nginx_redis
  = Some (windows_nginx_redis, ["Redis already stopped"]).
Proof.
  apply (proj1 (windows_script_stop_and_restart "redis" eq_refl windows_host
                  windows_get_service windows_control windows_nginx_redis
                  (Ps.Service Ps.Stopped "Redis") eq_refl)).
  reflexivity.
Defined.

Lemma windows_step_known {H} (get_service : H -> string -> string + Ps.service)
    control action h lines svc :
  known_action_nocase action = true ->
  exists h' line,
    windows_step get_service control action (h, lines) svc = (h', lines ++ [line]).
Proof.
  unfold known_action_nocase, windows_step, windows_guarded_step, windows_act_step.
  cbn [fst snd]. intros Hk.
  destruct (get_service h svc) as [msg|sv]; [eauto|].
  destruct (Ps.eq_nocase action "start").
  { destruct (bool_decide (Ps.Status sv = Ps.Running)); [eauto|].
    destruct (control h Ps.Start_Service svc) as [h' [msg|]]; eauto. }
  destruct (Ps.eq_nocase action "stop").
  { destruct (bool_decide (Ps.Status sv = Ps.Stopped)); [eauto|].
    destruct (control h Ps.Stop_Service svc) as [h' [msg|]]; eauto. }
  destruct (Ps.eq_nocase action "restart"); [|discriminate].
  destruct (control h Ps.Restart_Service_Force svc) as [h' [msg|]]; eauto.
Qed.

Lemma windows_rounds_known {H} (get_service : H -> string -> string + Ps.service)
    control action vs h lines :
  known_action_nocase action = true ->
  exists h' new,
    foldl (windows_step get_service control action) (h, lines) vs = (h', lines ++ new)
    /\ length new = length vs.
Proof.
  intros Hk. revert h lines. induction vs as [|v vs IH]; intros h lines.
  - exists h, []. by rewrite app_nil_r.
  - cbn [foldl].
    destruct (windows_step_known get_service control action h lines v Hk)
      as (h1 & line & ->).
    destruct (IH h1 (lines ++ [line])) as (h' & new & -> & Hlen).
    exists h', (line :: new). split; [by rewrite <- app_assoc | simpl; by rewrite Hlen].
Qed.

Lemma windows_step_unknown {H} (get_service : H -> string -> string + Ps.service)
    control action h lines svc :
  known_action_nocase action = false ->
  windows_step get_service control action (h, lines) svc
  = (h, lines ++ option_list (windows_lookup_error get_service h svc)).
Proof.
  unfold known_action_nocase. intros Hk.
  apply orb_false_iff in Hk as [Hk H3]. apply orb_false_iff in Hk as [H1 H2].
  unfold windows_step, windows_lookup_error. cbn [fst snd].
  rewrite H1, H2, H3.
  destruct (get_service h svc); simpl; [done | by rewrite app_nil_r].
Qed.

Lemma windows_rounds_unknown {H} (get_service : H -> string -> string + Ps.service)
    control action vs h lines :
  known_action_nocase action = false ->
  foldl (windows_step get_service control action) (h, lines) vs
  = (h, lines ++ omap (windows_lookup_error get_service h) vs).
Proof.
  intros Hk. revert lines. induction vs as [|v vs IH]; intros lines.
  - simpl. by rewrite app_nil_r.
  - cbn [foldl]. rewrite windows_step_unknown by done. rewrite IH.
    rewrite <- app_assoc. f_equal. f_equal.
    simpl. by destruct (windows_lookup_error get_service h v).
Qed.

(** X11: let the service list and the action be printable ASCII without
    double quote, dollar sign and backquote (so that PowerShell reads the
    two literals as they are), and let the service list hold no star,
    question mark or bracket (so that no element is a wildcard pattern).
    Then no error escapes the Windows script: it ends normally on every
    host.  When the action is start, stop or restart up to the case of its
    letters, it prints one line for each element of the service list split
    at the commas; a service that is missing or cannot be controlled gives
    an error line and the loop goes on.  For any other action no control
    cmdlet is called: the host is left as it was and only the elements
    [Get-Service] fails on are reported. *)
Theorem windows_script_reports_every_element services action :
  Ps.plain services = true ->
  Ps.plain action = true ->
  Ps.no_wildcard services = true ->
  forall (H : Type) get_service control (h : H),
  exists h' lines,
    Ps.run get_service control (windows_program services action) h = Some (h', lines)
    /\ (known_action_nocase action = true ->
        length lines = length (Py.split comma services))
    /\ (known_action_nocase action = false ->
        h' = h
        /\ lines = omap (windows_lookup_error get_service h) (Py.split comma services)).
Proof.
  intros Hp Ha Hw H get_service control h.
  rewrite windows_run_by_rounds by done.
  destruct (known_action_nocase action) eqn:Hk.
  - destruct (windows_rounds_known get_service control action
                (Py.split comma services) h [] Hk) as (h' & new & -> & Hlen).
    exists h', new. by repeat split.
  - rewrite windows_rounds_unknown by done.
    eexists _, _. by repeat split.
Qed.

Lemma windows_script_reports_every_element_witness :
  length (Py.split comma "nginx,ghost,redis") = 3
  /\ snd <$> Ps.run windows_get_service windows_control
               (windows_program "nginx,ghost,redis" "RESTART") windows_nginx_redis
     = Some ["Restarted Nginx Web Server";
             "Error with ghost: Cannot find any service with service name 'ghost'.";
             "Restarted Redis"].
Proof.
  destruct (windows_script_reports_every_element "nginx,ghost,redis" "RESTART"
              eq_refl eq_refl eq_refl windows_host windows_get_service windows_control
              windows_nginx_redis) as (h' & lines & Hrun & Hlen & _).
  specialize (Hlen eq_refl).
  vm_compute in Hrun. injection Hrun as <- <-.
  split; [symmetry; exact Hlen | vm_compute; reflexivity].
Defined.

(** X12: the Windows script reads the action without regard to the case of
    its letters.  Let the service list and the two actions be printable
    ASCII without double quote, dollar sign and backquote, and let the
    service list hold no star, question mark or bracket.  Then two actions
    with the same lower-case form give the same run of the script on every
    host. *)
Theorem windows_action_ignores_case services action action' :
  Py.lower action = Py.lower action' ->
  Ps.plain services = true ->
  Ps.plain action = true -> Ps.plain action' = true ->
  Ps.no_wildcard services = true ->
  forall (H : Type) get_service control (h : H),
    Ps.run get_service control (windows_program services action) h
    = Ps.run get_service control (windows_program services action') h.
Proof.
  intros Hl Hp Ha Ha' Hw H get_service control h.
  rewrite !windows_run_by_rounds by done. f_equal.
  assert (Hstep : forall acc svc,
             windows_step get_service control action acc svc
             = windows_step get_service control action' acc svc).
  { intros acc svc. unfold windows_step, Ps.eq_nocase. by rewrite Hl. }
  generalize (h, @nil string).
  induction (Py.split comma services) as [|v vs IH]; intros acc; [done|].
  cbn [foldl]. by rewrite Hstep, IH.
Qed.

Lemma windows_action_ignores_case_witness :
  Ps.run windows_get_service windows_control (windows_program "redis" "Start")
    windows_nginx_redis
  = Some (Windows_host [("nginx", Ps.Service Ps.Running "Nginx Web Server");
                        ("redis", Ps.Service Ps.Running "Redis")]
            [(Ps.Start_Service, "redis")],
          ["Started Redis"]).
Proof.
  etransitivity;
    [apply (windows_action_ignores_case "redis" "Start" "start" eq_refl eq_refl
              eq_refl eq_refl eq_refl windows_host windows_get_service windows_control
              windows_nginx_redis)|].
  vm_compute. reflexivity.
Defined.

(** ** What the presence check lets through *)

(** The script of a request is the template of the platform filled with the
    service list and the action as they are. *)
Lemma commands_send_request_for services action id platform :
  commands (send_request_for services action id platform)
  = [if is_windows platform then build_windows_script services action
     else build_linux_script services action].
Proof. unfold send_request_for, select_script. by destruct (is_windows platform). Qed.

(** Every request the loop submits is the one built for an instance of the
    list and its detected platform. *)
Lemma send_requests_dispatch_all w region services action ids :
  Forall (fun req =>
            exists id platform,
              id ∈ ids /\ detect w region id = inr platform
              /\ req = send_request_for services action id platform)
    (send_requests (fst (dispatch_all w region services action ids))).
Proof.
  induction ids as [|id ids IH]; [constructor|].
  assert (Hone : Forall (fun req =>
                   exists id' platform,
                     id' ∈ id :: ids /\ detect w region id' = inr platform
                     /\ req = send_request_for services action id' platform)
                   (send_requests (fst (dispatch_one w region services action id)))).
  { rewrite send_requests_dispatch_one. unfold expected_request.
    destruct (detect w region id) as [e|platform] eqn:Hd; [constructor|].
    repeat constructor. exists id, platform. split; [left|done]. }
  rewrite dispatch_all_cons.
  destruct (dispatch_one w region services action id) as [tr [[]|n|e]];
    cbn [fst] in *; try exact Hone.
  rewrite send_requests_app. apply Forall_app. split; [exact Hone|].
  eapply Forall_impl; [exact IH|].
  intros req (id' & platform & Hin & Hd & ->). exists id', platform.
  split; [by right|done].
Qed.

(** C1, as the code has it: before any request, [main] checks only that the
    three values are set and not empty.  When one is missing it raises
    [ValueError] with no event at all.  When all are present the run goes on
    whatever the action is: it builds the client of the resolver, ends in
    the exception of that step when it fails, and otherwise begins with the
    inventory query by display name.  When the resolver returns instances
    and the client of the command channel is built, the run is the
    resolution followed by the loop over these instances with the service
    list and the action as they were given; and every request the run
    submits is the one built for a detected instance from these two values,
    its script being the template of the platform filled with them. *)
Theorem validation_checks_presence_only env w :
  (config_present env = false ->
   main env w = ([], Raise (ValueError "Missing required env vars: servers, Service, Action")))
  /\ (config_present env = true ->
      exists servers services action,
        env = Environ (Some servers) (Some services) (Some action) (env_region env)
        /\ let region := default "us-east-1" (env_region env) in
           match client_error w "ec2" region with
           | Some e => main env w = ([], Raise e)
           | None =>
               exists tr o,
                 main env w
                 = (Describe_by_tag region "tag:Name" (server_list servers) :: tr, o)
           end
           /\ (forall tr ids,
                 get_instance_ids_by_name w (server_list servers) region
                   = (tr, Return ids) ->
                 ids <> [] ->
                 client_error w "ssm" region = None ->
                 main env w
                 = (tr ++ fst (dispatch_all w region services action ids),
                    snd (dispatch_all w region services action ids)))
           /\ Forall (fun req =>
                        exists id platform,
                          detect w region id = inr platform
                          /\ req = send_request_for services action id platform
                          /\ commands req
                             = [if is_windows platform
                                then build_windows_script services action
                                else build_linux_script services action])
                (send_requests (fst (main env w)))).
Proof.
  split; [apply main_absent|].
  destruct env as [[s|] [v|] [a|] r]; unfold config_present; simpl;
    try discriminate; try (rewrite ?andb_false_r; discriminate).
  intros Hp. exists s, v, a. split; [reflexivity|].
  pose proof (main_present s v a r w Hp) as Hm. cbv zeta in Hm.
  split; [exact (main_begins_with_resolution s v a r w Hp)|].
  split.
  - intros tr ids Hr Hne Hssm. rewrite Hm, Hr, Hssm. by destruct ids.
  - rewrite Hm.
    pose proof (get_instance_ids_by_name_no_send w (server_list s)
                  (default "us-east-1" r)) as Hns.
    destruct (get_instance_ids_by_name w (server_list s) (default "us-east-1" r))
      as [tr [[|id ids]|n|e]]; cbn [fst] in *.
    + rewrite send_requests_app, Hns. constructor.
    + destruct (client_error w "ssm" (default "us-east-1" r)) as [e0|]; cbn [fst].
      { rewrite Hns. constructor. }
      rewrite send_requests_app, Hns. cbn [app].
      eapply Forall_impl; [apply send_requests_dispatch_all|].
      intros req (id' & platform & _ & Hd & ->). exists id', platform.
      split; [done|]. split; [done|]. apply commands_send_request_for.
    + rewrite Hns. constructor.
    + rewrite Hns. constructor.
Qed.
